(** * Smart Recipe Generator: the browser-side controller of [public/app.js]

    A shallow embedding of the class [RecipeGenerator] and of the page-level
    handlers around it, followed by the properties proved about them.

    Conventions of the embedding.
    - A JavaScript string is a [string]: one [ascii] per UTF-16 code unit,
      for the code units below 256.
    - A JavaScript number is a [number]: [NaN] or an exact integer.  The script
      only compares numbers with integer literals, tests them for truthiness
      and prints them; on integers of magnitude up to 2^53 the three agree with
      IEEE doubles.  Fractions are outside the model.
    - A value that arrives from the server is a [JSValue], the image of
      [JSON.parse], plus [undefined] for a property that is not there.
    - The document is a finite map from the selector the script looks an
      element up by (an id, or [.form-container]) to the state of that element;
      a selector that was never written to stands for the element as the page's
      own markup, which is not part of the script, left it.
    - A thrown exception is its [message].  Texts of exceptions raised by the
      runtime itself are those of V8. *)

From Stdlib Require Import Ascii.
From stdpp Require Import base list strings gmap pretty.

#[local] Set Warnings "-register-all".
#[local] Open Scope Z_scope.

(** ** JavaScript values *)

Inductive number :=
| NaN
| Int (z : Z).

Inductive JSValue :=
| JUndefined
| JNull
| JBool (b : bool)
| JNum (n : number)
| JStr (s : string)
| JArr (elems : list JSValue)
| JObj (props : gmap string JSValue).

Record Exn := Error { message : string }.

(** A computation that either throws or returns. *)
Definition Completion (A : Type) : Type := Exn + A.

Definition throw {A} (msg : string) : Completion A := inl (Error msg).

Definition bindC {A B} (c : Completion A) (k : A -> Completion B) : Completion B :=
  match c with
  | inl e => inl e
  | inr a => k a
  end.

(** [ToBoolean]: what [if (v)], [v || w] and [v ? a : b] test. *)
Definition truthy (v : JSValue) : bool :=
  match v with
  | JUndefined | JNull => false
  | JBool b => b
  | JNum NaN => false
  | JNum (Int z) => negb (z =? 0)
  | JStr s => negb (bool_decide (s = ""))
  | JArr _ | JObj _ => true
  end.

(** [a || b] on values that are already evaluated (both operands of every
    [||] in the script are free of effects other than a throw on the left). *)
Definition or_else (a b : JSValue) : JSValue := if truthy a then a else b.

Definition TypeError_read (base property : string) : string :=
  "Cannot read properties of " +:+ base +:+ " (reading '" +:+ property +:+ "')".

(** [v.k] for a key [k] that no built-in prototype defines: every key the
    script reads with a dot is of this kind ([length] and [forEach], which it
    only uses on arrays, are [as_array] below). *)
Definition get (v : JSValue) (k : string) : Completion JSValue :=
  match v with
  | JUndefined => throw (TypeError_read "undefined" k)
  | JNull => throw (TypeError_read "null" k)
  | JObj props => inr (default JUndefined (props !! k))
  | JBool _ | JNum _ | JStr _ | JArr _ => inr JUndefined
  end.

(** [xs.forEach(...)]: the elements when [xs] is an array; any other truthy
    value has no callable [forEach] (a parsed object can own the key, never a
    function under it).  [callee] is the source text V8 quotes. *)
Definition as_array (callee : string) (v : JSValue) : Completion (list JSValue) :=
  match v with
  | JArr elems => inr elems
  | JUndefined => throw (TypeError_read "undefined" "forEach")
  | JNull => throw (TypeError_read "null" "forEach")
  | _ => throw (callee +:+ ".forEach is not a function")
  end.

Definition number_to_string (n : number) : string :=
  match n with
  | NaN => "NaN"
  | Int z => pretty z
  end.

Definition join_with (sep : string) (parts : list string) : string :=
  match parts with
  | [] => ""
  | p :: ps => fold_left (fun acc q => acc +:+ sep +:+ q) ps p
  end.

Definition sequenceC {A} (cs : list (Completion A)) : Completion (list A) :=
  fold_right (fun c acc => bindC c (fun a => bindC acc (fun l => inr (a :: l))))
             (inr []) cs.

(** [ToString], as applied by a template literal's [${v}], by [new Error(v)]
    and by the conversion of a value assigned to a DOM string.  An object
    prints through [Object.prototype.toString] unless it owns a [toString]
    key: what [JSON.parse] stores there is not callable, [valueOf] (its own, not
    callable either, or the inherited one, which returns the object) yields no
    primitive, and the conversion throws.  An array prints through [join]. *)
Fixpoint ToString (v : JSValue) : Completion string :=
  match v with
  | JUndefined => inr "undefined"
  | JNull => inr "null"
  | JBool true => inr "true"
  | JBool false => inr "false"
  | JNum n => inr (number_to_string n)
  | JStr s => inr s
  | JArr elems =>
      bindC (sequenceC (map (fun e => match e with
                                      | JUndefined | JNull => inr ""
                                      | _ => ToString e
                                      end) elems))
            (fun parts => inr (join_with "," parts))
  | JObj props =>
      match props !! "toString" with
      | Some _ => throw "Cannot convert object to primitive value"
      | None => inr "[object Object]"
      end
  end.

(** ** Strings: [trim] and [parseInt] *)

(** [WhiteSpace] and [LineTerminator] code units below 256: TAB, LF, VT, FF,
    CR, SP and NBSP. *)
Definition is_whitespace (c : Ascii.ascii) : bool :=
  let n := Z.of_N (Ascii.N_of_ascii c) in
  ((9 <=? n) && (n <=? 13)) || (n =? 32) || (n =? 160).

Fixpoint trimStart (s : string) : string :=
  match s with
  | String c rest => if is_whitespace c then trimStart rest else s
  | EmptyString => EmptyString
  end.

Definition trimEnd (s : string) : string := String.rev (trimStart (String.rev s)).

Definition trim (s : string) : string := trimEnd (trimStart s).

(** The value of [c] as a digit in radix [R], if it is one. *)
Definition digit_value (R : Z) (c : Ascii.ascii) : option Z :=
  let n := Z.of_N (Ascii.N_of_ascii c) in
  let d := if (48 <=? n) && (n <=? 57) then n - 48
           else if (97 <=? n) && (n <=? 122) then n - 97 + 10
           else if (65 <=? n) && (n <=? 90) then n - 65 + 10
           else 36 in
  if d <? R then Some d else None.

(** The longest prefix of [s] made of radix-[R] digits, most significant
    first. *)
Fixpoint leading_digits (R : Z) (s : string) : list Z :=
  match s with
  | String c rest =>
      match digit_value R c with
      | Some d => d :: leading_digits R rest
      | None => []
      end
  | EmptyString => []
  end.

Definition strip_sign (s : string) : Z * string :=
  match s with
  | String "-"%char rest => (-1, rest)
  | String "+"%char rest => (1, rest)
  | _ => (1, s)
  end.

Definition strip_hex_prefix (s : string) : Z * string :=
  match s with
  | String "0"%char (String "x"%char rest) => (16, rest)
  | String "0"%char (String "X"%char rest) => (16, rest)
  | _ => (10, s)
  end.

(** [parseInt(s)] with no radix argument. *)
Definition parseInt (s : string) : number :=
  let '(sign, unsigned) := strip_sign (trimStart s) in
  let '(R, body) := strip_hex_prefix unsigned in
  match leading_digits R body with
  | [] => NaN
  | digits => Int (sign * fold_left (fun acc d => acc * R + d) digits 0)
  end.

(** [a < b] and [a > b] on numbers: false as soon as an operand is [NaN]. *)
Definition lt (a b : number) : bool :=
  match a, b with
  | Int x, Int y => x <? y
  | _, _ => false
  end.

Definition gt (a b : number) : bool := lt b a.

(** ** The document *)

(** What the script puts into an element.  Markup written through a template
    literal is a constructor; its [${...}] holes are the arguments, already
    converted to strings. *)
Inductive Node :=
| TextNode (data : string)
| Li (text : string)
| IngredientTag (ingredient : string)
| IngredientLi (name : string) (notes : option string) (amount : string)
| InstructionLi (text : string) (meta : option (option string * option string))
| EquipmentBadge (text : string)
| NutritionItem (label value : string)
| Paragraph (text : string).

Record Element := mkElement {
  children : list Node;
  value : string;
  disabled : bool;
  classList : list string;
  style_display : string
}.

#[global] Instance Element_inhabited : Inhabited Element :=
  populate (mkElement [] "" false [] "").

Definition set_children (c : list Node) (e : Element) : Element :=
  mkElement c (value e) (disabled e) (classList e) (style_display e).
Definition set_value (v : string) (e : Element) : Element :=
  mkElement (children e) v (disabled e) (classList e) (style_display e).
Definition set_disabled (b : bool) (e : Element) : Element :=
  mkElement (children e) (value e) b (classList e) (style_display e).
Definition set_classList (c : list string) (e : Element) : Element :=
  mkElement (children e) (value e) (disabled e) c (style_display e).
Definition set_style_display (d : string) (e : Element) : Element :=
  mkElement (children e) (value e) (disabled e) (classList e) d.

(** [e.textContent = s]: every child is replaced by one text node, or by none
    when [s] is empty. *)
Definition set_textContent (s : string) (e : Element) : Element :=
  set_children (if bool_decide (s = "") then [] else [TextNode s]) e.

Definition appendChild (n : Node) (e : Element) : Element :=
  set_children (children e ++ [n]) e.

(** [e.innerHTML === '']: every node above serialises to a non-empty string
    but an empty text node. *)
Definition innerHTML_is_empty (e : Element) : bool :=
  forallb (fun n => match n with TextNode "" => true | _ => false end) (children e).

Definition classList_add (c : string) (e : Element) : Element :=
  set_classList (if bool_decide (c ∈ classList e) then classList e
                 else classList e ++ [c]) e.

Definition classList_remove (c : string) (e : Element) : Element :=
  set_classList (filter (fun x => x ≠ c) (classList e)) e.

Definition classList_contains (c : string) (e : Element) : bool :=
  bool_decide (c ∈ classList e).

(** The page, keyed by the selector the script uses.  The lookups of the
    script are taken to succeed; a selector without an entry reads as an
    element with no content, value or class. *)
Abbreviation Document := (gmap string Element).

Definition element (sel : string) (doc : Document) : Element := doc !!! sel.

Definition update (sel : string) (f : Element -> Element) (doc : Document) : Document :=
  <[sel := f (element sel doc)]> doc.

(** ** The application state and its surroundings *)

Record RecipeGenerator := mkRecipeGenerator {
  ingredients : list string;
  selectedEquipment : list string
}.

(** The object built by [collectFormData], which is also what
    [JSON.stringify] serialises into the request body. *)
Module Payload.
Record t := mk {
  ingredients : list string;
  cookingTime : number;
  servings : number;
  difficulty : string;
  cuisine : string;
  mealType : string;
  dietaryRestrictions : string;
  equipment : list string
}.
End Payload.

(** One call of [fetch(endpoint, options)]. *)
Record Request := mkRequest {
  endpoint : string;
  method : string;
  contentType : string;
  body : Payload.t
}.

Inductive Callback := HideError | ScrollToRecipe.

(** Everything the script can read or change: the singleton
    [window.recipeGenerator], the page, the calls of [fetch] made so far (oldest
    first), how many calls of [generateRecipe] are suspended at their [await],
    and the timers registered with [setTimeout] (delay in ms). *)
Record World := mkWorld {
  recipeGenerator : RecipeGenerator;
  document : Document;
  fetched : list Request;
  suspended : nat;
  timers : list (Z * Callback)
}.

Definition with_generator (g : RecipeGenerator) (w : World) : World :=
  mkWorld g (document w) (fetched w) (suspended w) (timers w).
Definition with_document (d : Document) (w : World) : World :=
  mkWorld (recipeGenerator w) d (fetched w) (suspended w) (timers w).
Definition with_fetched (r : list Request) (w : World) : World :=
  mkWorld (recipeGenerator w) (document w) r (suspended w) (timers w).
Definition with_suspended (n : nat) (w : World) : World :=
  mkWorld (recipeGenerator w) (document w) (fetched w) n (timers w).
Definition with_timers (t : list (Z * Callback)) (w : World) : World :=
  mkWorld (recipeGenerator w) (document w) (fetched w) (suspended w) t.

Definition on_element (sel : string) (f : Element -> Element) (w : World) : World :=
  with_document (update sel f (document w)) w.

Definition setTimeout (cb : Callback) (delay : Z) (w : World) : World :=
  with_timers (timers w ++ [(delay, cb)]) w.

(** A statement sequence that may throw part-way: the world reached so far is
    kept, as the mutations made before a [throw] are. *)
Definition Cmd (A : Type) : Type := World -> World * Completion A.

Definition ret {A} (a : A) : Cmd A := fun w => (w, inr a).
Definition raise {A} (e : Exn) : Cmd A := fun w => (w, inl e).
Definition bind {A B} (c : Cmd A) (k : A -> Cmd B) : Cmd B :=
  fun w => match c w with
           | (w', inr a) => k a w'
           | (w', inl e) => (w', inl e)
           end.
Definition eval {A} (c : Completion A) : Cmd A := fun w => (w, c).
Definition exec (f : World -> World) : Cmd unit := fun w => (f w, inr tt).

Declare Scope cmd_scope.
Notation "x <- c ; k" := (bind c (fun x => k))
  (at level 100, c at next level, right associativity) : cmd_scope.
Notation "c ;; k" := (bind c (fun _ => k))
  (at level 100, right associativity) : cmd_scope.
Delimit Scope cmd_scope with cmd.
Bind Scope cmd_scope with Cmd.

(** [try { body } catch (error) { handler }] and [... finally { cleanup }],
    for a [cleanup] that does not throw. *)
Definition try_catch {A} (body : Cmd A) (handler : Exn -> Cmd A) : Cmd A :=
  fun w => match body w with
           | (w', inl e) => handler e w'
           | r => r
           end.

Definition finally {A} (body : Cmd A) (cleanup : World -> World) : Cmd A :=
  fun w => let '(w', r) := body w in (cleanup w', r).

Fixpoint forEach {A} (f : A -> Cmd unit) (xs : list A) : Cmd unit :=
  match xs with
  | [] => ret tt
  | x :: rest => bind (f x) (fun _ => forEach f rest)
  end.

(** ** SelectionState: ingredients and equipment *)

Definition updateIngredientsDisplay (w : World) : World :=
  let w := on_element "ingredientsList" (set_children []) w in
  fold_left (fun w ingredient =>
               on_element "ingredientsList" (appendChild (IngredientTag ingredient)) w)
            (ingredients (recipeGenerator w)) w.

(** [this.ingredients.includes(x)], [this.selectedEquipment.includes(x)]. *)
Definition includes (x : string) (l : list string) : bool := bool_decide (x ∈ l).

Definition addIngredient (w : World) : World :=
  let ingredient := trim (value (element "ingredientInput" (document w))) in
  if negb (bool_decide (ingredient = "")) && negb (includes ingredient (ingredients (recipeGenerator w)))
  then
    let g := recipeGenerator w in
    let w := with_generator (mkRecipeGenerator (ingredients g ++ [ingredient]) (selectedEquipment g)) w in
    let w := updateIngredientsDisplay w in
    on_element "ingredientInput" (set_value "") w
  else w.

Definition removeIngredient (ingredient : string) (w : World) : World :=
  let g := recipeGenerator w in
  let w := with_generator
             (mkRecipeGenerator (filter (fun ing => ing ≠ ingredient) (ingredients g))
                                (selectedEquipment g)) w in
  updateIngredientsDisplay w.

(** One [div.equipment-item] of the grid: the state of its checkbox and
    whether it carries the class [selected]. *)
Record EquipmentItem := mkEquipmentItem {
  checked : bool;
  selected : bool
}.

Definition updateEquipmentSelection (item : EquipmentItem) (equipment : string)
    (g : RecipeGenerator) : EquipmentItem * RecipeGenerator :=
  if checked item then
    (mkEquipmentItem (checked item) true,
     if negb (includes equipment (selectedEquipment g))
     then mkRecipeGenerator (ingredients g) (selectedEquipment g ++ [equipment])
     else g)
  else
    (mkEquipmentItem (checked item) false,
     mkRecipeGenerator (ingredients g)
                       (filter (fun eq => eq ≠ equipment) (selectedEquipment g))).

(** ** RequestBuilder and FormValidator *)

Definition collectFormData (w : World) : Payload.t :=
  let field id := value (element id (document w)) in
  Payload.mk (ingredients (recipeGenerator w))
             (parseInt (field "cookingTime"))
             (parseInt (field "servings"))
             (field "difficulty")
             (field "cuisine")
             (field "mealType")
             (field "dietaryRestrictions")
             (selectedEquipment (recipeGenerator w)).

Definition validateForm (data : Payload.t) : list string :=
  let errors := [] in
  let errors :=
    if bool_decide (length (Payload.ingredients data) = 0%nat)
    then errors ++ ["Please add at least one ingredient"] else errors in
  let errors :=
    if lt (Payload.cookingTime data) (Int 5) || gt (Payload.cookingTime data) (Int 480)
    then errors ++ ["Cooking time must be between 5 and 480 minutes"] else errors in
  let errors :=
    if lt (Payload.servings data) (Int 1) || gt (Payload.servings data) (Int 20)
    then errors ++ ["Servings must be between 1 and 20"] else errors in
  errors.

(** ** Error banner and loading state *)

Definition hideError (w : World) : World :=
  on_element "errorMessage" (classList_add "hidden") w.

Definition showError (msg : string) (w : World) : World :=
  let w := on_element "errorText" (set_textContent msg) w in
  let w := on_element "errorMessage" (classList_remove "hidden") w in
  setTimeout HideError 8000 w.

Definition setLoadingState (loading : bool) (w : World) : World :=
  if loading then
    on_element "generateBtn" (fun b => classList_add "loading" (set_disabled true b)) w
  else
    on_element "generateBtn" (fun b => classList_remove "loading" (set_disabled false b)) w.

Definition scrollToRecipe (w : World) : World := setTimeout ScrollToRecipe 100 w.

(** ** ResponseRenderer *)

(** The conversion applied to a value assigned to [textContent], a nullable
    DOM string: [null] and [undefined] give the empty string. *)
Definition to_textContent (v : JSValue) : Completion string :=
  match v with
  | JUndefined | JNull => inr ""
  | _ => ToString v
  end.

Definition assign_textContent (sel : string) (v : JSValue) : Cmd unit :=
  (text <- eval (to_textContent v);
   exec (on_element sel (set_textContent text)))%cmd.

(** [cond ? `...${v}...` : ''] as the optional hole of a template. *)
Definition when_truthy (v : JSValue) : Completion (option string) :=
  if truthy v then bindC (ToString v) (fun s => inr (Some s)) else inr None.

Definition ingredient_li (ingredient : JSValue) : Completion Node :=
  match ingredient with
  | JStr s => inr (Li s)
  | _ =>
      bindC (get ingredient "item") (fun item =>
      bindC (get ingredient "name") (fun name =>
      bindC (ToString (or_else item name)) (fun nameText =>
      bindC (get ingredient "notes") (fun notes =>
      bindC (when_truthy notes) (fun notesText =>
      bindC (get ingredient "amount") (fun amount =>
      bindC (ToString (or_else amount (JStr ""))) (fun amountText =>
      bindC (get ingredient "unit") (fun unit =>
      bindC (ToString (or_else unit (JStr ""))) (fun unitText =>
      inr (IngredientLi nameText notesText (amountText +:+ " " +:+ unitText)))))))))))
  end.

Definition displayIngredients (ingredients : JSValue) : Cmd unit :=
  (exec (on_element "recipeIngredients" (set_children []));;
   items <- eval (as_array "ingredients" ingredients);
   forEach (fun ingredient =>
              li <- eval (ingredient_li ingredient);
              exec (on_element "recipeIngredients" (appendChild li))) items)%cmd.

Definition displayEquipment (equipment : JSValue) : Cmd unit :=
  (exec (on_element "recipeEquipment" (set_children []));;
   items <- eval (as_array "equipment" equipment);
   forEach (fun item =>
              text <- eval (to_textContent item);
              exec (on_element "recipeEquipment" (appendChild (EquipmentBadge text)))) items)%cmd.

Definition instruction_li (instruction : JSValue) : Completion Node :=
  match instruction with
  | JStr s => inr (Li s)
  | _ =>
      bindC (get instruction "instruction") (fun body =>
      bindC (ToString body) (fun text =>
      bindC (get instruction "time") (fun time =>
      bindC (get instruction "temperature") (fun temperature =>
      if truthy (or_else time temperature) then
        bindC (when_truthy time) (fun timeText =>
        bindC (when_truthy temperature) (fun temperatureText =>
        inr (InstructionLi text (Some (timeText, temperatureText)))))
      else inr (InstructionLi text None)))))
  end.

Definition displayInstructions (instructions : JSValue) : Cmd unit :=
  (exec (on_element "recipeInstructions" (set_children []));;
   items <- eval (as_array "instructions" instructions);
   forEach (fun instruction =>
              li <- eval (instruction_li instruction);
              exec (on_element "recipeInstructions" (appendChild li))) items)%cmd.

Definition displayTips (tips : JSValue) : Cmd unit :=
  (exec (on_element "recipeTips" (set_children []));;
   items <- eval (as_array "tips" tips);
   forEach (fun tip =>
              text <- eval (to_textContent tip);
              exec (on_element "recipeTips" (appendChild (Li text)))) items)%cmd.

Definition displayNutrition (nutrition : JSValue) : Cmd unit :=
  (exec (on_element "recipeNutrition" (set_children []));;
   calories <- eval (get nutrition "calories");
   protein <- eval (get nutrition "protein");
   carbs <- eval (get nutrition "carbs");
   fat <- eval (get nutrition "fat");
   let nutritionItems :=
     [("Calories", calories); ("Protein", protein); ("Carbs", carbs); ("Fat", fat)] in
   forEach (fun item : string * JSValue =>
              if truthy (snd item) then
                text <- eval (ToString (snd item));
                exec (on_element "recipeNutrition" (appendChild (NutritionItem (fst item) text)))
              else ret tt) nutritionItems;;
   fun w =>
     if innerHTML_is_empty (element "recipeNutrition" (document w))
     then exec (on_element "recipeNutrition"
                  (set_children [Paragraph "Nutrition information not available"])) w
     else ret tt w)%cmd.

Definition displayVariations (variations : JSValue) : Cmd unit :=
  (exec (on_element "recipeVariations" (set_children []));;
   items <- eval (as_array "variations" variations);
   forEach (fun variation =>
              text <- eval (to_textContent variation);
              exec (on_element "recipeVariations" (appendChild (Li text)))) items;;
   if bool_decide (length items = 0%nat) then
     exec (on_element "recipeVariations"
             (appendChild (Li "Try adding different spices or substituting ingredients to make it your own!")))
   else ret tt)%cmd.

Definition displayRecipe (recipe : JSValue) : Cmd unit :=
  (exec (on_element ".form-container" (set_style_display "none"));;
   exec (on_element "recipeResult" (classList_remove "hidden"));;
   title <- eval (get recipe "title");
   assign_textContent "recipeTitle" (or_else title (JStr "Generated Recipe"));;
   description <- eval (get recipe "description");
   assign_textContent "recipeDescription" (or_else description (JStr ""));;
   totalTime <- eval (get recipe "totalTime");
   cookTime <- eval (get recipe "cookTime");
   time <- eval (ToString (or_else totalTime cookTime));
   exec (on_element "recipeTotalTime" (set_textContent (time +:+ " min")));;
   servings <- eval (get recipe "servings");
   count <- eval (ToString servings);
   exec (on_element "recipeServings" (set_textContent (count +:+ " servings")));;
   difficulty <- eval (get recipe "difficulty");
   assign_textContent "recipeDifficulty" (or_else difficulty (JStr "Medium"));;
   cuisine <- eval (get recipe "cuisine");
   assign_textContent "recipeCuisine" (or_else cuisine (JStr "Mixed"));;
   ingredients <- eval (get recipe "ingredients");
   displayIngredients (or_else ingredients (JArr []));;
   equipment <- eval (get recipe "equipment");
   displayEquipment (or_else equipment (JArr []));;
   instructions <- eval (get recipe "instructions");
   displayInstructions (or_else instructions (JArr []));;
   tips <- eval (get recipe "tips");
   displayTips (or_else tips (JArr []));;
   nutritionInfo <- eval (get recipe "nutritionInfo");
   displayNutrition (or_else nutritionInfo (JObj ∅));;
   storage <- eval (get recipe "storage");
   assign_textContent "recipeStorage" (or_else storage (JStr "Store in refrigerator"));;
   variations <- eval (get recipe "variations");
   displayVariations (or_else variations (JArr [])))%cmd.

(** ** ViewController: [fetchAPI], [generateRecipe] and the page's handlers *)

(** What came back for a call of [fetch]: the promise rejected (no response at
    all), or a response with its status and what [response.json()] makes of the
    body.  The runtime's own message comes with a rejection and with a body
    that does not parse. *)
Inductive Body :=
| NotJSON (syntaxError : string)
| JSON (v : JSValue).

Inductive FetchOutcome :=
| Rejected (reason : string)
| Responded (status : Z) (body : Body).

(** [response.ok]. *)
Definition ok (status : Z) : bool := (200 <=? status) && (status <=? 299).

Definition fetch (r : Request) (w : World) : World :=
  with_fetched (fetched w ++ [r]) w.

(** [fetchAPI] from the point where [fetch] has settled. *)
Definition fetchAPI (o : FetchOutcome) : Completion JSValue :=
  match o with
  | Rejected reason => throw reason
  | Responded status body =>
      if negb (ok status) then
        let errorData :=
          match body with
          | JSON v => v
          | NotJSON _ => JObj ∅
          end in
        bindC (get errorData "error") (fun error =>
        bindC (ToString (or_else error (JStr ("HTTP error! status: " +:+ pretty status))))
              (fun msg => throw msg))
      else
        match body with
        | JSON v => inr v
        | NotJSON syntaxError => throw syntaxError
        end
  end.

(** [generateRecipe] up to its [await]: either it returns after showing the
    validation errors, or it has called [fetch] and is suspended. *)
Definition generateRecipe_submit (w : World) : World :=
  let formData := collectFormData w in
  let validationErrors := validateForm formData in
  if bool_decide (0 < length validationErrors)%nat then
    showError (join_with ". " validationErrors) w
  else
    let w := setLoadingState true w in
    let w := hideError w in
    let w := fetch (mkRequest "/api/recipes/generate" "POST" "application/json" formData) w in
    with_suspended (S (suspended w)) w.

(** [generateRecipe] from its [await] on, once the outcome [o] is known. *)
Definition generateRecipe_resume (o : FetchOutcome) (w : World) : World :=
  fst (finally
         (try_catch
            (response <- eval (fetchAPI o);
             success <- eval (get response "success");
             if truthy success then
               data <- eval (get response "data");
               displayRecipe data;;
               exec scrollToRecipe
             else
               error <- eval (get response "error");
               msg <- eval (ToString (or_else error (JStr "Failed to generate recipe")));
               raise (Error msg))%cmd
            (fun error =>
               exec (showError (if bool_decide (message error = "")
                                then "Failed to generate recipe. Please try again."
                                else message error))))
         (setLoadingState false) w).

Definition resetForm (w : World) : World :=
  let w := on_element ".form-container" (set_style_display "block") w in
  let w := on_element "recipeResult" (classList_add "hidden") w in
  let w := with_generator (mkRecipeGenerator [] (selectedEquipment (recipeGenerator w))) w in
  let w := with_generator (mkRecipeGenerator (ingredients (recipeGenerator w)) []) w in
  let w := updateIngredientsDisplay w in
  let w := on_element "cookingTime" (set_value "30") w in
  let w := on_element "servings" (set_value "4") w in
  let w := on_element "difficulty" (set_value "Medium") w in
  let w := on_element "cuisine" (set_value "") w in
  let w := on_element "mealType" (set_value "") w in
  let w := on_element "dietaryRestrictions" (set_value "") w in
  let w := on_element "ingredientInput" (set_value "") w in
  hideError w.

(** What [resetForm] does to each [div.equipment-item] of the grid. *)
Definition resetEquipmentItem (item : EquipmentItem) : EquipmentItem :=
  mkEquipmentItem false false.

(** The events of the page that reach [generateRecipe]: the form's [submit]
    listener, the [keydown] listener on Ctrl/Cmd+Enter, and the settling of the
    [fetch] a suspended call is waiting for.  A listener is modelled from the
    point where it runs; when the browser dispatches [submit] depends on the
    page's markup, while [keydown] reaches its listener whatever the state of
    the button. *)
Inductive Event :=
| SubmitForm
| KeydownCtrlEnter
| FetchSettled (o : FetchOutcome).

Definition handle (ev : Event) (w : World) : World :=
  match ev with
  | SubmitForm => generateRecipe_submit w
  | KeydownCtrlEnter =>
      if negb (bool_decide (style_display (element "recipeForm" (document w)) = "none"))
      then generateRecipe_submit w
      else w
  | FetchSettled o =>
      match suspended w with
      | O => w
      | S n => generateRecipe_resume o (with_suspended n w)
      end
  end.

Definition run (events : list Event) (w : World) : World :=
  fold_left (fun w ev => handle ev w) events w.

(** A page on which nothing has happened yet but the user's input: the given
    ingredients and the two numeric fields as typed. *)
Definition page (ingredients : list string) (cookingTime servings : string) : World :=
  mkWorld (mkRecipeGenerator ingredients [])
          (<["cookingTime" := set_value cookingTime inhabitant]>
             (<["servings" := set_value servings inhabitant]> ∅))
          [] 0 [].

(** User actions around the handlers: typing into the ingredient box, and the
    operations that act on the equipment selection. *)
Definition typeIngredient (text : string) (w : World) : World :=
  on_element "ingredientInput" (set_value text) w.

Inductive SelectionOp :=
| Toggle (item : EquipmentItem) (equipment : string)
| Reset.

Definition perform (op : SelectionOp) (w : World) : World :=
  match op with
  | Toggle item equipment =>
      with_generator (snd (updateEquipmentSelection item equipment (recipeGenerator w))) w
  | Reset => resetForm w
  end.

(** The number of entries of [l] equal to [x]. *)
Definition occurrences (x : string) (l : list string) : nat :=
  length (filter (fun y => y = x) l).

(** [c] leaves the element under [sel] as it found it, whether it returns or
    throws. *)
Definition preserves {A} (sel : string) (c : Cmd A) : Prop :=
  ∀ w, element sel (document (fst (c w))) = element sel (document w).

(** The text [ToString] gives for [v], when it gives one. *)
Definition text_of (v : JSValue) : option string :=
  match ToString v with
  | inr s => Some s
  | inl _ => None
  end.

(** [recipe.k] on a parsed object. *)
Definition field (props : gmap string JSValue) (k : string) : JSValue :=
  default JUndefined (props !! k).

(** The nutrition section as the specification words it: of the four
    recognized fields, in the order calories, protein, carbs, fat, those whose
    value is truthy, each with its label and the text of its value; the one
    placeholder line when there is none. *)
Definition recognized_nutrition : list (string * string) :=
  [("Calories", "calories"); ("Protein", "protein"); ("Carbs", "carbs"); ("Fat", "fat")].

Definition nutrition_section (nutrition : gmap string JSValue) : list Node :=
  let shown := filter (fun entry => truthy (field nutrition (snd entry))) recognized_nutrition in
  match shown with
  | [] => [Paragraph "Nutrition information not available"]
  | _ => map (fun entry => NutritionItem (fst entry)
                             (default "" (text_of (field nutrition (snd entry))))) shown
  end.

(** [v] converts to a string without throwing. *)
Definition printable (v : JSValue) : Prop := is_Some (text_of v).

(** The total-time line as the specification words it: [totalTime] when the
    response has that field, else [cookTime] when it has that one, else
    nothing; a value is shown with its unit. *)
Definition specified_totalTime (recipe : gmap string JSValue) : string :=
  match recipe !! "totalTime", recipe !! "cookTime" with
  | Some t, _ => default "" (text_of t) +:+ " min"
  | None, Some c => default "" (text_of c) +:+ " min"
  | None, None => ""
  end.

(** The outcomes in which the generation service fails: a response with a
    status outside 2xx, whatever its body, or a 2xx response whose parsed body
    has a falsy [success]. *)
Inductive failure : FetchOutcome -> Prop :=
| failure_status status body :
    ok status = false ->
    failure (Responded status body)
| failure_flag status response success :
    ok status = true ->
    get response "success" = inr success ->
    truthy success = false ->
    failure (Responded status (JSON response)).

(** The value whose [error] property a failing path reads: outside 2xx
    [errorData] of [fetchAPI], which is the parsed body, or [{}] for a body
    that does not parse; within 2xx the response, which is the parsed body. *)
Definition error_source (body : Body) : JSValue :=
  match body with
  | JSON v => v
  | NotJSON _ => JObj ∅
  end.

(** The literal a failing path puts after its [||]: that of [fetchAPI]
    outside 2xx, that of [generateRecipe] within. *)
Definition fallback_of (status : Z) : string :=
  if ok status then "Failed to generate recipe"
  else "HTTP error! status: " +:+ pretty status.

(** [error.message || 'Failed to generate recipe. Please try again.'] in the
    [catch] block of [generateRecipe]. *)
Definition caught_message (e : Exn) : string :=
  if bool_decide (message e = "")
  then "Failed to generate recipe. Please try again."
  else message e.

(** What reaches the banner for an [error] property and the fallback of the
    path: [new Error(error || fallback)] is thrown, unless the conversion of
    its argument throws first, and the [catch] block shows the message. *)
Definition surfaced (error : JSValue) (fallback : string) : string :=
  caught_message (match ToString (or_else error (JStr fallback)) with
                  | inl e => e
                  | inr msg => Error msg
                  end).

(** ** The remaining handlers of the page *)

(** What a timer registered by [setTimeout] does when it fires: the callback
    of [showError] hides the banner, that of [scrollToRecipe] only scrolls. *)
Definition fire (cb : Callback) (w : World) : World :=
  match cb with
  | HideError => hideError w
  | ScrollToRecipe => w
  end.

(** The [keydown] listener for the key Escape (its second test, on Enter, does
    not apply), and the [popstate] listener. *)
Definition keydown_Escape (w : World) : World :=
  if negb (classList_contains "hidden" (element "recipeResult" (document w)))
  then resetForm w
  else w.

Definition popstate (w : World) : World :=
  if bool_decide (classList_contains "hidden" (element "recipeResult" (document w)) = false)
  then resetForm w
  else w.

(** The [online] and [offline] listeners of the window. *)
Definition online (w : World) : World := hideError w.

Definition offline (w : World) : World :=
  showError "Network connection lost. Please check your internet connection." w.

(** The [demo=true] branch of the [DOMContentLoaded] listener. *)
Definition demo (w : World) : World :=
  let g := recipeGenerator w in
  let w := with_generator
             (mkRecipeGenerator ["chicken breast"; "rice"; "broccoli"] (selectedEquipment g)) w in
  updateIngredientsDisplay w.

(** One run of the [click] listener of a [div.equipment-item], for an event
    whose target is the checkbox or is not: in the second case the listener
    flips the checkbox first; then, as in the [change] listener of the
    checkbox, the selection is updated. *)
Definition item_click (target_is_checkbox : bool) (item : EquipmentItem)
    (equipment : string) (g : RecipeGenerator) : EquipmentItem * RecipeGenerator :=
  let item := if negb target_is_checkbox
              then mkEquipmentItem (negb (checked item)) (selected item)
              else item in
  updateEquipmentSelection item equipment g.

Definition checkbox_change (item : EquipmentItem) (equipment : string)
    (g : RecipeGenerator) : EquipmentItem * RecipeGenerator :=
  updateEquipmentSelection item equipment g.

(** What one click of the user sets off, as the browser dispatches it for
    the markup of lines 92-95 (an [input type=checkbox] and its
    [label for=...] inside the item).
    - On the checkbox: the browser flips the box, the [click] event bubbles to
      the item's listener with the checkbox as target, then [change] fires.
    - On the item itself, beside the checkbox and the label: the [click]
      listener runs once, with a target that is not the checkbox.
    - On the label: the [click] listener runs with the label as target; the
      label then activates its checkbox, which is a click on the checkbox.
      That the label belongs to this item's checkbox supposes a name that the
      template carries unchanged into [id] and [for] and that no other item
      of the grid has. *)
Definition click_on_checkbox (item : EquipmentItem) (equipment : string)
    (g : RecipeGenerator) : EquipmentItem * RecipeGenerator :=
  let flipped := mkEquipmentItem (negb (checked item)) (selected item) in
  let '(item, g) := item_click true flipped equipment g in
  checkbox_change item equipment g.

Definition click_on_item (item : EquipmentItem) (equipment : string)
    (g : RecipeGenerator) : EquipmentItem * RecipeGenerator :=
  item_click false item equipment g.

Definition click_on_label (item : EquipmentItem) (equipment : string)
    (g : RecipeGenerator) : EquipmentItem * RecipeGenerator :=
  let '(item, g) := item_click false item equipment g in
  click_on_checkbox item equipment g.

(** The nodes a loop of the renderer appends: one per entry, up to the first
    entry whose rendering throws, with that exception if there is one. *)
Fixpoint render_all {A B} (render : A -> Completion B) (xs : list A) : list B * option Exn :=
  match xs with
  | [] => ([], None)
  | x :: rest =>
      match render x with
      | inl e => ([], Some e)
      | inr b => let '(bs, r) := render_all render rest in (b :: bs, r)
      end
  end.

Definition completion_of (r : option Exn) : Completion unit :=
  match r with
  | Some e => inl e
  | None => inr tt
  end.

(** The selectors [displayRecipe] writes to. *)
Definition recipe_selectors : list string :=
  [".form-container"; "recipeResult"; "recipeTitle"; "recipeDescription";
   "recipeTotalTime"; "recipeServings"; "recipeDifficulty"; "recipeCuisine";
   "recipeIngredients"; "recipeEquipment"; "recipeInstructions"; "recipeTips";
   "recipeNutrition"; "recipeStorage"; "recipeVariations"].

(** [c] changes nothing of the world but the document. *)
Definition document_only {A} (c : Cmd A) : Prop :=
  ∀ w, ∃ doc, fst (c w) = with_document doc w.

(** No leading and no trailing white space. *)
Definition trimmed (s : string) : Prop := trim s = s.

(** The list container holds one tag per entry of the ingredient list, in
    its order, each the template of [updateIngredientsDisplay] filled with that
    entry's string (how the browser parses a string that holds markup is not
    part of [IngredientTag]). *)
Definition tags_mirror (w : World) : Prop :=
  children (element "ingredientsList" (document w))
  = map IngredientTag (ingredients (recipeGenerator w)).

(** What an element holds after [textContent = s]. *)
Definition text_node_of (s : string) : list Node :=
  if bool_decide (s = "") then [] else [TextNode s].

(** [v || literal], as text. *)
Definition text_or (v : JSValue) (literal : string) : string :=
  if truthy v then default "" (text_of v) else literal.

(** ** Loading the option lists *)

(** An [option] appended to a select, and the controls that
    [loadDropdownOptions] fills: the options appended to each select (by its
    id, after those of the page's markup), the items appended to the equipment
    grid with their labels, and the endpoints requested so far, oldest first. *)
Record OptionElement := mkOption {
  option_value : string;
  option_text : string
}.

Record Controls := mkControls {
  options : gmap string (list OptionElement);
  equipmentGrid : list (string * EquipmentItem);
  requested : list string
}.

Record Page := mkPage {
  world : World;
  controls : Controls
}.

(** The body of the loop of [populateSelect]: [value] takes the entry's
    string, [textContent] its text. *)
Definition option_element (option : JSValue) : Completion OptionElement :=
  bindC (ToString option) (fun v =>
  bindC (to_textContent option) (fun text =>
  inr (mkOption v text))).

Definition populateSelect (selectId : string) (opts : JSValue) (c : Controls)
    : Controls * Completion unit :=
  match as_array "options" opts with
  | inl e => (c, inl e)
  | inr items =>
      let '(elements, thrown) := render_all option_element items in
      (mkControls (<[selectId := default [] (options c !! selectId) ++ elements]> (options c))
                  (equipmentGrid c) (requested c),
       completion_of thrown)
  end.

(** The body of the loop of [populateEquipmentGrid]: the template of the item
    prints the entry, the box starts unchecked. *)
Definition grid_item (equipment : JSValue) : Completion (string * EquipmentItem) :=
  bindC (ToString equipment) (fun label => inr (label, mkEquipmentItem false false)).

Definition populateEquipmentGrid (equipmentList : JSValue) (c : Controls)
    : Controls * Completion unit :=
  match as_array "equipmentList" equipmentList with
  | inl e => (c, inl e)
  | inr items =>
      let '(elements, thrown) := render_all grid_item items in
      (mkControls (options c) (equipmentGrid c ++ elements) (requested c),
       completion_of thrown)
  end.

(** The four requests of [loadDropdownOptions], in the order of the source. *)
Inductive Stage := Cuisines | MealTypes | DietaryRestrictions | Equipment.

Definition endpoint_of (s : Stage) : string :=
  match s with
  | Cuisines => "/api/recipes/cuisines"
  | MealTypes => "/api/recipes/meal-types"
  | DietaryRestrictions => "/api/recipes/dietary-restrictions"
  | Equipment => "/api/recipes/equipment"
  end.

Definition next_stage (s : Stage) : option Stage :=
  match s with
  | Cuisines => Some MealTypes
  | MealTypes => Some DietaryRestrictions
  | DietaryRestrictions => Some Equipment
  | Equipment => None
  end.

Definition populate (s : Stage) (data : JSValue) (c : Controls) : Controls * Completion unit :=
  match s with
  | Cuisines => populateSelect "cuisine" data c
  | MealTypes => populateSelect "mealType" data c
  | DietaryRestrictions => populateSelect "dietaryRestrictions" data c
  | Equipment => populateEquipmentGrid data c
  end.

Definition request (url : string) (p : Page) : Page :=
  mkPage (world p)
         (mkControls (options (controls p)) (equipmentGrid (controls p))
                     (requested (controls p) ++ [url])).

(** [loadDropdownOptions] up to its first [await]. *)
Definition loadDropdownOptions_start (p : Page) : Page * Stage :=
  (request (endpoint_of Cuisines) p, Cuisines).

(** [loadDropdownOptions] from the [await] of stage [s], once the outcome of
    its request is known, up to the next [await] or the end: the list is
    populated and the next request sent, or the [catch] block shows its
    message and the function ends. *)
Definition loadDropdownOptions_resume (s : Stage) (o : FetchOutcome) (p : Page)
    : Page * option Stage :=
  let failed c :=
    (mkPage (showError "Failed to load options. Please refresh the page." (world p)) c,
     None) in
  match bindC (fetchAPI o) (fun response => get response "data") with
  | inl _ => failed (controls p)
  | inr data =>
      match populate s data (controls p) with
      | (c, inl _) => failed c
      | (c, inr _) =>
          match next_stage s with
          | Some s' => (request (endpoint_of s') (mkPage (world p) c), Some s')
          | None => (mkPage (world p) c, None)
          end
      end
  end.

(** The continuations run one after the other on the outcomes of the
    requests, in the order the requests were made. *)
Fixpoint loadDropdownOptions_run (s : Stage) (outcomes : list FetchOutcome) (p : Page)
    : Page * option Stage :=
  match outcomes with
  | [] => (p, Some s)
  | o :: rest =>
      match loadDropdownOptions_resume s o p with
      | (p', Some s') => loadDropdownOptions_run s' rest p'
      | (p', None) => (p', None)
      end
  end.

Definition loadDropdownOptions (outcomes : list FetchOutcome) (p : Page) : Page * option Stage :=
  let '(p, s) := loadDropdownOptions_start p in
  loadDropdownOptions_run s outcomes p.

(** A response of the option endpoints: 200 with [{data: [...strings]}]. *)
Definition option_list (names : list string) : FetchOutcome :=
  Responded 200 (JSON (JObj {[ "data" := JArr (map JStr names) ]})).

(** * Properties *)

(** ** Plumbing: what the DOM helpers leave alone *)

Lemma element_update_eq sel f doc :
  element sel (update sel f doc) = f (element sel doc).
Proof. unfold element, update. by rewrite lookup_total_insert_eq. Qed.

Lemma element_update_ne sel sel' f doc :
  sel' ≠ sel -> element sel (update sel' f doc) = element sel doc.
Proof. intros Hne. unfold element, update. by rewrite lookup_total_insert_ne. Qed.

Lemma element_on_element_eq sel f w :
  element sel (document (on_element sel f w)) = f (element sel (document w)).
Proof. apply element_update_eq. Qed.

Lemma element_on_element_ne sel sel' f w :
  sel' ≠ sel -> element sel (document (on_element sel' f w)) = element sel (document w).
Proof. apply element_update_ne. Qed.

Lemma recipeGenerator_fold_on_element {A} (g : A -> string * (Element -> Element)) xs w :
  recipeGenerator (fold_left (fun w x => on_element (fst (g x)) (snd (g x)) w) xs w)
  = recipeGenerator w.
Proof. revert w. induction xs as [|x xs IH]; intros w; [done|]. simpl. by rewrite IH. Qed.

Lemma recipeGenerator_updateIngredientsDisplay w :
  recipeGenerator (updateIngredientsDisplay w) = recipeGenerator w.
Proof.
  unfold updateIngredientsDisplay.
  by rewrite (recipeGenerator_fold_on_element
                (fun i => ("ingredientsList", appendChild (IngredientTag i)))).
Qed.

(** ** SelectionState *)

Lemma occurrences_filter_ne x name (l : list string) :
  x ≠ name -> occurrences x (filter (fun ing => ing ≠ name) l) = occurrences x l.
Proof.
  intros Hne. unfold occurrences. induction l as [|y l IH]; [done|].
  rewrite !filter_cons. destruct (decide (y ≠ name)) as [Hy|Hy].
  - rewrite filter_cons. destruct (decide (y = x)); simpl; by rewrite IH.
  - destruct (decide (y = x)) as [->|]; [|done].
    exfalso. apply Hy. done.
Qed.

Lemma filter_ne_absent name (l : list string) :
  name ∉ l -> filter (fun ing => ing ≠ name) l = l.
Proof.
  induction l as [|y l IH]; intros Hnotin; [done|].
  apply not_elem_of_cons in Hnotin as [Hne Hl].
  rewrite filter_cons_True by done. by rewrite IH.
Qed.

(** C9. [removeIngredient(name)] keeps exactly the entries different from
    [name], in their order: no entry equal to [name] is left, what is left is a
    subsequence of the list with every other string as often as before, the
    equipment selection is untouched, and the list is unchanged when [name]
    does not occur in it. *)
Theorem removeIngredient_removes_every_entry (w : World) (name : string) :
  let l := ingredients (recipeGenerator w) in
  let l' := ingredients (recipeGenerator (removeIngredient name w)) in
  l' = filter (fun ing => ing ≠ name) l
  ∧ (name ∉ l')
  ∧ l' `sublist_of` l
  ∧ (∀ x, x ≠ name -> occurrences x l' = occurrences x l)
  ∧ selectedEquipment (recipeGenerator (removeIngredient name w))
    = selectedEquipment (recipeGenerator w)
  ∧ (name ∉ l -> l' = l).
Proof.
  intros l l'.
  assert (Hl' : l' = filter (fun ing => ing ≠ name) l).
  { subst l l'. unfold removeIngredient.
    by rewrite recipeGenerator_updateIngredientsDisplay. }
  split; [exact Hl'|]. rewrite Hl'. repeat split.
  - intros Hin. apply list_elem_of_filter in Hin as [Hne _]. by apply Hne.
  - apply sublist_filter.
  - intros x Hne. by apply occurrences_filter_ne.
  - unfold removeIngredient. by rewrite recipeGenerator_updateIngredientsDisplay.
  - apply filter_ne_absent.
Qed.

Lemma removeIngredient_removes_every_entry_witness :
  let w := page ["egg"; "flour"; "egg"] "30" "4" in
  ("milk" ∉ ingredients (recipeGenerator w))
  ∧ ingredients (recipeGenerator (removeIngredient "milk" w)) = ["egg"; "flour"; "egg"]
  ∧ ingredients (recipeGenerator (removeIngredient "egg" w)) = ["flour"].
Proof.
  intros w.
  assert (Habsent : "milk" ∉ ingredients (recipeGenerator w)).
  { apply (bool_decide_unpack _). vm_compute. exact I. }
  split; [exact Habsent|]. split.
  - apply (removeIngredient_removes_every_entry w "milk"). exact Habsent.
  - rewrite (proj1 (removeIngredient_removes_every_entry w "egg")). reflexivity.
Defined.

Lemma addIngredient_noop (w : World) :
  let t := trim (value (element "ingredientInput" (document w))) in
  t = "" ∨ t ∈ ingredients (recipeGenerator w) -> addIngredient w = w.
Proof.
  intros t Hskip. unfold addIngredient, includes. fold t.
  destruct Hskip as [Hempty|Hin].
  - by rewrite (bool_decide_eq_true_2 _ Hempty).
  - rewrite (bool_decide_eq_true_2 _ Hin). by rewrite andb_false_r.
Qed.

Lemma addIngredient_appends (w : World) :
  let t := trim (value (element "ingredientInput" (document w))) in
  t ≠ "" -> t ∉ ingredients (recipeGenerator w) ->
  ingredients (recipeGenerator (addIngredient w)) = ingredients (recipeGenerator w) ++ [t]
  ∧ selectedEquipment (recipeGenerator (addIngredient w)) = selectedEquipment (recipeGenerator w)
  ∧ value (element "ingredientInput" (document (addIngredient w))) = "".
Proof.
  intros t Hne Hnotin. unfold addIngredient, includes. fold t.
  rewrite (bool_decide_eq_false_2 _ Hne), (bool_decide_eq_false_2 _ Hnotin).
  cbn [negb andb]. rewrite element_on_element_eq.
  change (recipeGenerator (on_element ?s ?f ?w)) with (recipeGenerator w).
  rewrite recipeGenerator_updateIngredientsDisplay. done.
Qed.

Lemma value_typeIngredient text w :
  value (element "ingredientInput" (document (typeIngredient text w))) = text.
Proof. unfold typeIngredient. by rewrite element_on_element_eq. Qed.

Lemma occurrences_app x (l k : list string) :
  occurrences x (l ++ k) = (occurrences x l + occurrences x k)%nat.
Proof. unfold occurrences. by rewrite filter_app, length_app. Qed.

Lemma occurrences_absent x (l : list string) : x ∉ l -> occurrences x l = 0%nat.
Proof.
  intros Hnotin. unfold occurrences. induction l as [|y l IH]; [done|].
  apply not_elem_of_cons in Hnotin as [Hne Hl].
  rewrite filter_cons_False by (intros ->; done). by apply IH.
Qed.

Lemma occurrences_NoDup x (l : list string) : NoDup l -> x ∈ l -> occurrences x l = 1%nat.
Proof.
  intros Hnd Hin. induction Hnd as [|y l Hy Hnd IH]; [by apply elem_of_nil in Hin|].
  unfold occurrences. rewrite filter_cons. destruct (decide (y = x)) as [->|Hne].
  - simpl. f_equal. by apply occurrences_absent.
  - apply elem_of_cons in Hin as [->|Hin]; [done|]. by apply IH.
Qed.

Lemma addIngredient_typed (w : World) (text : string) :
  let l := ingredients (recipeGenerator w) in
  let t := trim text in
  ingredients (recipeGenerator (addIngredient (typeIngredient text w)))
  = if bool_decide (t = "" ∨ t ∈ l) then l else l ++ [t].
Proof.
  intros l t. pose proof (value_typeIngredient text w) as Hvalue.
  case_bool_decide as Hskip.
  - rewrite addIngredient_noop; [done|]. by rewrite Hvalue.
  - apply Decidable.not_or in Hskip as [Hne Hnotin].
    pose proof (addIngredient_appends (typeIngredient text w)) as Happ.
    cbv zeta in Happ. rewrite Hvalue in Happ. by apply Happ.
Qed.

Lemma ingredients_resetForm w : ingredients (recipeGenerator (resetForm w)) = [].
Proof.
  unfold resetForm, hideError.
  repeat change (recipeGenerator (on_element ?s ?f ?w)) with (recipeGenerator w).
  by rewrite recipeGenerator_updateIngredientsDisplay.
Qed.

(** No method introduces a repetition into the ingredient list:
    [addIngredient] (whatever the box holds), [removeIngredient] and
    [resetForm] keep a list without repetition, and the demo list has none. *)
Lemma ingredients_NoDup (w : World) :
  NoDup (ingredients (recipeGenerator w)) ->
  NoDup (ingredients (recipeGenerator (addIngredient w)))
  ∧ (∀ name, NoDup (ingredients (recipeGenerator (removeIngredient name w))))
  ∧ NoDup (ingredients (recipeGenerator (resetForm w))).
Proof.
  intros Hnd. refine (conj _ (conj _ _)).
  - set (t := trim (value (element "ingredientInput" (document w)))).
    destruct (decide (t = "" ∨ t ∈ ingredients (recipeGenerator w))) as [Hskip|Hskip].
    + by rewrite addIngredient_noop.
    + apply Decidable.not_or in Hskip as [Hne Hnotin].
      destruct (addIngredient_appends w Hne Hnotin) as (-> & _).
      apply NoDup_app. repeat split; [done| |apply NoDup_singleton].
      intros x Hx Hx'. apply list_elem_of_singleton in Hx'. by subst.
  - intros name. unfold removeIngredient. rewrite recipeGenerator_updateIngredientsDisplay.
    by apply NoDup_filter.
  - rewrite ingredients_resetForm. apply NoDup_nil_2.
Qed.

(** C4. With [text] in the ingredient box, [addIngredient] works on
    [trim text]: it changes nothing at all when that is empty or already in
    the list (compared as strings), and otherwise appends it at the end.  Typing
    the same text and adding again leaves the list as the first call made it;
    on a list without repetitions the ingredient then occurs once, where it was
    (at its old index if it was there before, at the end otherwise). *)
Theorem addIngredient_trims_and_deduplicates (w : World) (text : string) :
  let l := ingredients (recipeGenerator w) in
  let t := trim text in
  let w0 := typeIngredient text w in
  let w1 := addIngredient w0 in
  let w2 := addIngredient (typeIngredient text w1) in
  (t = "" ∨ t ∈ l -> w1 = w0)
  ∧ (t ≠ "" -> t ∉ l -> ingredients (recipeGenerator w1) = l ++ [t])
  ∧ ingredients (recipeGenerator w2) = ingredients (recipeGenerator w1)
  ∧ (t ≠ "" -> NoDup l ->
     occurrences t (ingredients (recipeGenerator w2)) = 1%nat
     ∧ NoDup (ingredients (recipeGenerator w2))
     ∧ (∀ i, l !! i = Some t -> ingredients (recipeGenerator w2) !! i = Some t)
     ∧ (t ∉ l -> ingredients (recipeGenerator w2) !! length l = Some t)).
Proof.
  intros l t w0 w1 w2.
  assert (H1 : ingredients (recipeGenerator w1) = if bool_decide (t = "" ∨ t ∈ l) then l else l ++ [t])
    by (subst l t w1 w0; apply (addIngredient_typed w text)).
  assert (H2 : ingredients (recipeGenerator w2) = ingredients (recipeGenerator w1)).
  { subst w2. rewrite (addIngredient_typed w1 text). cbv zeta. fold t.
    rewrite bool_decide_eq_true_2; [done|]. rewrite H1.
    destruct (decide (t = "" ∨ t ∈ l)) as [Hskip|Hskip].
    - by rewrite bool_decide_eq_true_2.
    - rewrite bool_decide_eq_false_2 by done. right.
      apply elem_of_app. right. by apply list_elem_of_singleton. }
  split; [|split; [|split; [exact H2|]]].
  - intros Hskip. apply addIngredient_noop. subst w0. by rewrite value_typeIngredient.
  - intros Hne Hnotin. rewrite H1. rewrite bool_decide_eq_false_2; [done|]. tauto.
  - intros Hne Hnd. rewrite H2, H1. case_bool_decide as Hskip.
    + destruct Hskip as [?|Hin]; [done|]. repeat split; [|done|done|done].
      by apply occurrences_NoDup.
    + apply Decidable.not_or in Hskip as [_ Hnotin]. repeat split.
      * rewrite occurrences_app, occurrences_absent by done.
        unfold occurrences. by rewrite filter_cons_True.
      * apply NoDup_app. repeat split; [done| |apply NoDup_singleton].
        intros x Hx Hx'. apply list_elem_of_singleton in Hx'. by subst.
      * intros i Hi. by apply lookup_app_l_Some.
      * intros _. by rewrite list_lookup_middle.
Qed.

Lemma addIngredient_trims_and_deduplicates_witness :
  let w := page ["egg"; "flour"] "30" "4" in
  let added text := ingredients (recipeGenerator (addIngredient (typeIngredient text w))) in
  let twice text :=
    ingredients (recipeGenerator
      (addIngredient (typeIngredient text (addIngredient (typeIngredient text w))))) in
  added "  milk " = ["egg"; "flour"; "milk"]
  ∧ addIngredient (typeIngredient " egg" w) = typeIngredient " egg" w
  ∧ addIngredient (typeIngredient "   " w) = typeIngredient "   " w
  ∧ occurrences "milk" (twice "  milk ") = 1%nat
  ∧ twice "  milk " !! 2%nat = Some "milk"
  ∧ twice " egg" !! 0%nat = Some "egg".
Proof.
  intros w added twice.
  pose proof (addIngredient_trims_and_deduplicates w "  milk ") as (_ & Hnew & _ & Honce).
  pose proof (addIngredient_trims_and_deduplicates w " egg") as (Hold & _ & _ & Hkeep).
  pose proof (addIngredient_trims_and_deduplicates w "   ") as (Hblank & _).
  assert (Hnd : NoDup (ingredients (recipeGenerator w))).
  { apply (bool_decide_unpack _). vm_compute. exact I. }
  assert (Hmilk : trim "  milk " ∉ ingredients (recipeGenerator w)).
  { apply (bool_decide_unpack _). vm_compute. exact I. }
  assert (Hegg : trim " egg" ∈ ingredients (recipeGenerator w)).
  { apply (bool_decide_unpack _). vm_compute. exact I. }
  refine (conj _ (conj _ (conj _ (conj _ (conj _ _))))).
  - apply Hnew; [discriminate|exact Hmilk].
  - apply Hold. right. exact Hegg.
  - apply Hblank. left. reflexivity.
  - apply Honce; [discriminate|exact Hnd].
  - apply Honce; [discriminate|exact Hnd|exact Hmilk].
  - apply Hkeep; [discriminate|exact Hnd|]. reflexivity.
Defined.

Lemma updateEquipmentSelection_NoDup item equipment g :
  NoDup (selectedEquipment g) ->
  NoDup (selectedEquipment (snd (updateEquipmentSelection item equipment g))).
Proof.
  intros Hnd. unfold updateEquipmentSelection, includes.
  destruct (checked item); simpl.
  - case_bool_decide as Hin; simpl; [done|].
    apply NoDup_app. repeat split; [done| |apply NoDup_singleton].
    intros x Hx Hx'. apply list_elem_of_singleton in Hx'. by subst.
  - by apply NoDup_filter.
Qed.

Lemma selectedEquipment_resetForm w :
  selectedEquipment (recipeGenerator (resetForm w)) = [].
Proof.
  unfold resetForm, hideError.
  repeat change (recipeGenerator (on_element ?s ?f ?w)) with (recipeGenerator w).
  by rewrite recipeGenerator_updateIngredientsDisplay.
Qed.

Lemma perform_NoDup op w :
  NoDup (selectedEquipment (recipeGenerator w)) ->
  NoDup (selectedEquipment (recipeGenerator (perform op w))).
Proof.
  intros Hnd. destruct op as [item equipment|]; unfold perform.
  - by apply updateEquipmentSelection_NoDup.
  - rewrite selectedEquipment_resetForm. apply NoDup_nil_2.
Qed.

(** C10. Whatever sequence of checkbox updates (checked or not, for any
    equipment name, repeated names included) and form resets follows an empty
    selection, no name occurs twice in [selectedEquipment]; and a second update
    for the same name with the box checked changes nothing. *)
Theorem selectedEquipment_never_duplicates (ops : list SelectionOp) (w : World) :
  NoDup (selectedEquipment (recipeGenerator
           (fold_left (fun w op => perform op w) ops
                      (with_generator (mkRecipeGenerator (ingredients (recipeGenerator w)) []) w))))
  ∧ (∀ g equipment visible visible',
       let once := snd (updateEquipmentSelection (mkEquipmentItem true visible) equipment g) in
       snd (updateEquipmentSelection (mkEquipmentItem true visible') equipment once) = once).
Proof.
  split.
  - set (w0 := with_generator _ w).
    assert (Hnd : NoDup (selectedEquipment (recipeGenerator w0))) by apply NoDup_nil_2.
    clearbody w0. revert w0 Hnd.
    induction ops as [|op ops IH]; intros w0 Hnd; [done|].
    simpl. apply IH. by apply perform_NoDup.
  - intros g equipment visible visible' once. subst once.
    unfold updateEquipmentSelection, includes. simpl.
    destruct (decide (equipment ∈ selectedEquipment g)) as [Hin|Hnotin].
    + rewrite (bool_decide_eq_true_2 _ Hin). simpl.
      by rewrite (bool_decide_eq_true_2 _ Hin).
    + rewrite (bool_decide_eq_false_2 _ Hnotin). simpl.
      rewrite bool_decide_eq_true_2; [done|].
      apply elem_of_app. right. by apply list_elem_of_singleton.
Qed.

(** ** FormValidator *)

Lemma validateForm_rules (data : Payload.t) :
  ("Please add at least one ingredient" ∈ validateForm data
   ↔ Payload.ingredients data = [])
  ∧ ("Cooking time must be between 5 and 480 minutes" ∈ validateForm data
     ↔ ∃ t, Payload.cookingTime data = Int t ∧ (t < 5 ∨ 480 < t))
  ∧ ("Servings must be between 1 and 20" ∈ validateForm data
     ↔ ∃ s, Payload.servings data = Int s ∧ (s < 1 ∨ 20 < s))
  ∧ validateForm data `sublist_of`
      ["Please add at least one ingredient";
       "Cooking time must be between 5 and 480 minutes";
       "Servings must be between 1 and 20"].
Proof.
  destruct data as [ings time serv ? ? ? ? ?]. unfold validateForm, gt, lt. simpl.
  assert (Hrange : ∀ lo hi n, (n <? lo) || (hi <? n) = false -> ¬ (n < lo ∨ hi < n)).
  { intros lo hi n Hb Hn. apply orb_false_iff in Hb as [?%Z.ltb_ge ?%Z.ltb_ge]. lia. }
  assert (Hout : ∀ lo hi n, (n <? lo) || (hi <? n) = true -> n < lo ∨ hi < n).
  { intros lo hi n Hb. apply orb_true_iff in Hb as [?%Z.ltb_lt|?%Z.ltb_lt]; lia. }
  destruct ings as [|i ings]; simpl;
    destruct time as [|t]; simpl; try destruct ((t <? 5) || (480 <? t)) eqn:Ht;
    destruct serv as [|s]; simpl; try destruct ((s <? 1) || (20 <? s)) eqn:Hs.
  all: split_and!; try (by repeat constructor).
  all: split; intros H.
  all: try done.
  all: try (by eexists; split; [reflexivity|]; eauto).
  all: try (by destruct H as (? & [= <-] & H); eapply Hrange in H).
  all: try (by destruct H as (? & [=] & _)).
  all: try (by apply (bool_decide_unpack _); vm_compute).
  all: try (by apply (bool_decide_pack _) in H; vm_compute in H).
Qed.

(** C3. The three rules of [validateForm] are tested one by one and each
    reports on its own: a message is in the result exactly when its rule is
    violated, the result lists them in the order of the rules, each at most
    once; on [{ingredients: [], cookingTime: 30, servings: 4}] that is the one
    message about ingredients, on [{ingredients: ["egg"], cookingTime: 3,
    servings: 25}] the two about cooking time and servings. *)
Theorem validateForm_reports_every_violated_rule :
  (∀ data,
     ("Please add at least one ingredient" ∈ validateForm data
      ↔ Payload.ingredients data = [])
     ∧ ("Cooking time must be between 5 and 480 minutes" ∈ validateForm data
        ↔ ∃ t, Payload.cookingTime data = Int t ∧ (t < 5 ∨ 480 < t))
     ∧ ("Servings must be between 1 and 20" ∈ validateForm data
        ↔ ∃ s, Payload.servings data = Int s ∧ (s < 1 ∨ 20 < s))
     ∧ validateForm data `sublist_of`
         ["Please add at least one ingredient";
          "Cooking time must be between 5 and 480 minutes";
          "Servings must be between 1 and 20"])
  ∧ (∀ difficulty cuisine mealType dietaryRestrictions equipment,
       validateForm (Payload.mk [] (Int 30) (Int 4)
                       difficulty cuisine mealType dietaryRestrictions equipment)
       = ["Please add at least one ingredient"]
       ∧ validateForm (Payload.mk ["egg"] (Int 3) (Int 25)
                         difficulty cuisine mealType dietaryRestrictions equipment)
         = ["Cooking time must be between 5 and 480 minutes";
            "Servings must be between 1 and 20"]).
Proof.
  split; [apply validateForm_rules|by intros].
Qed.

(** A field that does not parse gives [NaN], and [NaN] passes both range
    rules: neither [NaN < lo] nor [NaN > hi] holds. *)
Lemma validateForm_accepts_NaN (data : Payload.t) :
  (Payload.cookingTime data = NaN ->
   "Cooking time must be between 5 and 480 minutes" ∉ validateForm data)
  ∧ (Payload.servings data = NaN ->
     "Servings must be between 1 and 20" ∉ validateForm data).
Proof.
  destruct (validateForm_rules data) as (_ & Htime & Hserv & _).
  split; intros HNaN Hin.
  - apply Htime in Hin as (t & Ht & _). congruence.
  - apply Hserv in Hin as (s & Hs & _). congruence.
Qed.

(** C1 (the code does otherwise). With one ingredient, an empty cooking-time
    field and servings 4, [collectFormData] puts [NaN] into the payload;
    [NaN < 5] and [NaN > 480] are both false, so [validateForm] returns no error
    and [generateRecipe] sends the payload.  The same happens for a servings
    field that does not parse. *)
Theorem failed_parse_passes_validation :
  let w := page ["egg"] "" "4" in
  let w' := page ["egg"] "30" "" in
  Payload.cookingTime (collectFormData w) = NaN
  ∧ lt NaN (Int 5) || gt NaN (Int 480) = false
  ∧ validateForm (collectFormData w) = []
  ∧ map body (fetched (generateRecipe_submit w)) = [collectFormData w]
  ∧ Payload.servings (collectFormData w') = NaN
  ∧ validateForm (collectFormData w') = []
  ∧ map body (fetched (generateRecipe_submit w')) = [collectFormData w'].
Proof. by vm_compute. Qed.

(** ** ViewController *)

Lemma collectFormData_on_element sel f w :
  sel ∉ ["cookingTime"; "servings"; "difficulty"; "cuisine"; "mealType";
         "dietaryRestrictions"] ->
  collectFormData (on_element sel f w) = collectFormData w.
Proof.
  intros Hsel. unfold collectFormData.
  change (recipeGenerator (on_element sel f w)) with (recipeGenerator w).
  rewrite !element_on_element_ne; [done|..];
    intros ->; apply Hsel; apply (bool_decide_unpack _); by vm_compute.
Qed.

(** With a valid form, [generateRecipe] disables the button, calls [fetch]
    once and suspends; it reads nothing that tells whether a call is already
    suspended, and leaves the form as it was. *)
Lemma generateRecipe_submit_valid (w : World) :
  validateForm (collectFormData w) = [] ->
  let w' := generateRecipe_submit w in
  fetched w' = fetched w ++ [mkRequest "/api/recipes/generate" "POST" "application/json"
                                       (collectFormData w)]
  ∧ suspended w' = S (suspended w)
  ∧ disabled (element "generateBtn" (document w')) = true
  ∧ collectFormData w' = collectFormData w.
Proof.
  intros Hvalid w'. subst w'. unfold generateRecipe_submit. rewrite Hvalid.
  rewrite bool_decide_eq_false_2 by (simpl; lia).
  cbv zeta. unfold fetch, hideError, setLoadingState.
  refine (conj _ (conj _ (conj _ _))); try reflexivity.
  - cbn [document with_suspended with_fetched].
    rewrite element_on_element_ne by done. by rewrite element_on_element_eq.
  - change (collectFormData (with_suspended ?n (with_fetched ?r ?w)))
      with (collectFormData w).
    rewrite !collectFormData_on_element; [done|..];
      intros Hin; apply (bool_decide_pack _) in Hin; by vm_compute in Hin.
Qed.

Lemma generateRecipe_submit_twice (w : World) :
  validateForm (collectFormData w) = [] ->
  let r := mkRequest "/api/recipes/generate" "POST" "application/json" (collectFormData w) in
  fetched (generateRecipe_submit (generateRecipe_submit w)) = fetched w ++ [r; r].
Proof.
  intros Hvalid r.
  destruct (generateRecipe_submit_valid w Hvalid) as (Hfetched & _ & _ & Hform).
  destruct (generateRecipe_submit_valid (generateRecipe_submit w)) as (Hfetched' & _).
  { by rewrite Hform. }
  rewrite Hfetched', Hfetched, Hform. by rewrite <- app_assoc.
Qed.

(** C2 (the code does otherwise). On a valid form, one Ctrl+Enter starts a
    request: the button is disabled and the call is suspended at its [await].
    A second Ctrl+Enter, or a second [submit] event, before that request settles
    calls [fetch] again: two requests have been sent. *)
Theorem second_submit_sends_second_request :
  let w := page ["egg"] "30" "4" in
  let w1 := handle KeydownCtrlEnter w in
  disabled (element "generateBtn" (document w1)) = true
  ∧ suspended w1 = 1%nat
  ∧ length (fetched w1) = 1%nat
  ∧ length (fetched (handle KeydownCtrlEnter w1)) = 2%nat
  ∧ length (fetched (handle SubmitForm w1)) = 2%nat
  ∧ length (fetched (run [SubmitForm; SubmitForm] w)) = 2%nat.
Proof. by vm_compute. Qed.

(** ** ResponseRenderer *)

Lemma preserves_ret {A} sel (a : A) : preserves sel (ret a).
Proof. by intros w. Qed.

Lemma preserves_raise {A} sel (e : Exn) : preserves sel (raise e : Cmd A).
Proof. by intros w. Qed.

Lemma preserves_eval {A} sel (c : Completion A) : preserves sel (eval c).
Proof. by intros w. Qed.

Lemma preserves_on_element sel sel' f :
  sel' ≠ sel -> preserves sel (exec (on_element sel' f)).
Proof. intros Hne w. simpl. by apply element_on_element_ne. Qed.

Lemma preserves_bind {A B} sel (c : Cmd A) (k : A -> Cmd B) :
  preserves sel c -> (∀ a, preserves sel (k a)) -> preserves sel (bind c k).
Proof.
  intros Hc Hk w. unfold bind. specialize (Hc w).
  destruct (c w) as [w' [e|a]]; simpl in *; [done|]. by rewrite Hk.
Qed.

Lemma preserves_forEach {A} sel (f : A -> Cmd unit) (xs : list A) :
  (∀ x, preserves sel (f x)) -> preserves sel (forEach f xs).
Proof.
  intros Hf. induction xs as [|x xs IH]; [apply preserves_ret|].
  simpl. apply preserves_bind; [apply Hf|]. by intros _.
Qed.

Ltac frame_step :=
  first
    [ apply preserves_bind; [|intros ?]
    | apply preserves_forEach; intros ?
    | apply preserves_eval
    | apply preserves_ret
    | apply preserves_raise
    | apply preserves_on_element; done
    | match goal with
      | |- preserves _ (if ?b then _ else _) => destruct b
      | |- preserves _ (assign_textContent _ _) => unfold assign_textContent
      end ].

Ltac frame := repeat frame_step.

Lemma preserves_displayIngredients sel v :
  sel ≠ "recipeIngredients" -> preserves sel (displayIngredients v).
Proof. intros Hne. unfold displayIngredients. frame. Qed.

Lemma preserves_displayEquipment sel v :
  sel ≠ "recipeEquipment" -> preserves sel (displayEquipment v).
Proof. intros Hne. unfold displayEquipment. frame. Qed.

Lemma preserves_displayInstructions sel v :
  sel ≠ "recipeInstructions" -> preserves sel (displayInstructions v).
Proof. intros Hne. unfold displayInstructions. frame. Qed.

Lemma preserves_displayTips sel v :
  sel ≠ "recipeTips" -> preserves sel (displayTips v).
Proof. intros Hne. unfold displayTips. frame. Qed.

Lemma preserves_displayNutrition sel v :
  sel ≠ "recipeNutrition" -> preserves sel (displayNutrition v).
Proof.
  intros Hne. unfold displayNutrition. frame.
  intros w. destruct (innerHTML_is_empty _); [|done].
  simpl. by apply element_on_element_ne.
Qed.

Lemma preserves_displayVariations sel v :
  sel ≠ "recipeVariations" -> preserves sel (displayVariations v).
Proof. intros Hne. unfold displayVariations. frame. Qed.

Lemma bind_exec {B} (f : World -> World) (k : unit -> Cmd B) w :
  bind (exec f) k w = k tt (f w).
Proof. done. Qed.

Lemma bind_eval {A B} (a : A) (k : A -> Cmd B) w :
  bind (eval (inr a)) k w = k a w.
Proof. done. Qed.

Lemma text_of_Some v s : text_of v = Some s -> ToString v = inr s.
Proof. unfold text_of. destruct (ToString v); naive_solver. Qed.

(** The loop of [displayNutrition] over any list of labelled values: it
    appends one item per truthy value, in order, provided each of them prints. *)
Lemma forEach_nutritionItems (items : list (string * JSValue)) (w : World) :
  (∀ item, item ∈ items -> truthy (snd item) -> is_Some (text_of (snd item))) ->
  ∃ w',
    forEach (fun item : string * JSValue =>
               if truthy (snd item) then
                 (text <- eval (ToString (snd item));
                  exec (on_element "recipeNutrition"
                          (appendChild (NutritionItem (fst item) text))))%cmd
               else ret tt) items w = (w', inr tt)
    ∧ children (element "recipeNutrition" (document w'))
      = children (element "recipeNutrition" (document w))
        ++ map (fun item => NutritionItem (fst item) (default "" (text_of (snd item))))
               (filter (fun item => truthy (snd item)) items)
    ∧ ∀ sel, sel ≠ "recipeNutrition" ->
        element sel (document w') = element sel (document w).
Proof.
  revert w. induction items as [|item items IH]; intros w Hprint.
  { exists w. by rewrite app_nil_r. }
  assert (Hrest : ∀ item', item' ∈ items -> truthy (snd item') -> is_Some (text_of (snd item'))).
  { intros item' Hin. apply Hprint. by apply list_elem_of_further. }
  cbn [forEach]. rewrite filter_cons.
  destruct (truthy (snd item)) eqn:Htruthy.
  - destruct (Hprint item) as [text Htext]; [apply list_elem_of_here|by rewrite Htruthy|].
    rewrite (text_of_Some _ _ Htext).
    unfold bind at 1. cbn [eval exec bind].
    destruct (IH (on_element "recipeNutrition" (appendChild (NutritionItem (fst item) text)) w) Hrest)
      as (w' & Hrun & Hchildren & Hframe).
    exists w'. split; [exact Hrun|]. split.
    + rewrite Hchildren, element_on_element_eq.
      rewrite decide_True by exact I. cbn [map]. rewrite Htext. simpl.
      by rewrite <- app_assoc.
    + intros sel Hne. rewrite Hframe by done. by apply element_on_element_ne.
  - rewrite decide_False by (intros []).
    destruct (IH w Hrest) as (w' & Hrun & Hchildren & Hframe).
    exists w'. done.
Qed.

Lemma displayNutrition_object (nutrition : gmap string JSValue) (w : World) :
  (∀ entry, entry ∈ recognized_nutrition ->
     truthy (field nutrition (snd entry)) -> printable (field nutrition (snd entry))) ->
  ∃ w',
    displayNutrition (JObj nutrition) w = (w', inr tt)
    ∧ children (element "recipeNutrition" (document w')) = nutrition_section nutrition
    ∧ ∀ sel, sel ≠ "recipeNutrition" -> element sel (document w') = element sel (document w).
Proof.
  intros Hprint. unfold displayNutrition.
  rewrite bind_exec. cbn [get]. rewrite !bind_eval.
  repeat change (default JUndefined (nutrition !! ?k)) with (field nutrition k).
  set (w1 := on_element "recipeNutrition" (set_children []) w).
  set (items := [("Calories", field nutrition "calories"); ("Protein", field nutrition "protein");
                 ("Carbs", field nutrition "carbs"); ("Fat", field nutrition "fat")]).
  destruct (forEach_nutritionItems items w1) as (w2 & Hrun & Hchildren & Hframe).
  { intros item Hin. subst items.
    apply elem_of_cons in Hin as [->|Hin];
      [apply (Hprint ("Calories", "calories")); unfold recognized_nutrition; set_solver|].
    apply elem_of_cons in Hin as [->|Hin];
      [apply (Hprint ("Protein", "protein")); unfold recognized_nutrition; set_solver|].
    apply elem_of_cons in Hin as [->|Hin];
      [apply (Hprint ("Carbs", "carbs")); unfold recognized_nutrition; set_solver|].
    apply list_elem_of_singleton in Hin as ->.
    apply (Hprint ("Fat", "fat")); unfold recognized_nutrition; set_solver. }
  unfold bind at 1. rewrite Hrun.
  subst w1. rewrite element_on_element_eq in Hchildren. cbn [children set_children app] in Hchildren.
  unfold nutrition_section, recognized_nutrition. subst items.
  rewrite !filter_cons, filter_nil in Hchildren. rewrite !filter_cons, filter_nil.
  cbn [fst snd] in *.
  unfold innerHTML_is_empty. rewrite Hchildren.
  destruct (truthy (field nutrition "calories")), (truthy (field nutrition "protein")),
    (truthy (field nutrition "carbs")), (truthy (field nutrition "fat")); simpl.
  all: eexists; split; [reflexivity|]; split;
    [ first [ by rewrite element_on_element_eq | by rewrite Hchildren ]
    | intros sel Hne; rewrite ?element_on_element_ne by congruence;
      rewrite Hframe by done; apply element_on_element_ne; congruence ].
Qed.

(** C7. For a [nutritionInfo] object whose truthy recognized values convert to
    text, [displayNutrition] returns and leaves in the nutrition container
    exactly [nutrition_section]: one item per recognized field with a truthy
    value, in the order calories, protein, carbs, fat, or the single line
    "Nutrition information not available" when no such field is truthy. *)
Theorem displayNutrition_shows_truthy_fields (nutrition : gmap string JSValue) (w : World) :
  (∀ entry, entry ∈ recognized_nutrition ->
     truthy (field nutrition (snd entry)) -> printable (field nutrition (snd entry))) ->
  ∃ w',
    displayNutrition (JObj nutrition) w = (w', inr tt)
    ∧ children (element "recipeNutrition" (document w')) = nutrition_section nutrition
    ∧ ((∀ entry, entry ∈ recognized_nutrition -> ¬ truthy (field nutrition (snd entry))) ->
       children (element "recipeNutrition" (document w'))
       = [Paragraph "Nutrition information not available"]).
Proof.
  intros Hprint.
  destruct (displayNutrition_object nutrition w Hprint) as (w' & Hrun & Hchildren & _).
  exists w'. split; [exact Hrun|]. split; [exact Hchildren|].
  intros Hnone. rewrite Hchildren. unfold nutrition_section.
  unfold recognized_nutrition in *. rewrite !filter_cons, filter_nil.
  rewrite !decide_False; [done|..]; apply Hnone; set_solver.
Qed.

Lemma displayNutrition_shows_truthy_fields_witness :
  let nutrition : gmap string JSValue :=
    {[ "calories" := JNum (Int 250); "protein" := JStr "12g";
       "carbs" := JNum (Int 0); "fat" := JStr ""; "fiber" := JStr "3g" ]} in
  ∃ w',
    displayNutrition (JObj nutrition) (page [] "30" "4") = (w', inr tt)
    ∧ children (element "recipeNutrition" (document w'))
      = [NutritionItem "Calories" "250"; NutritionItem "Protein" "12g"].
Proof.
  intros nutrition.
  destruct (displayNutrition_shows_truthy_fields nutrition (page [] "30" "4"))
    as (w' & Hrun & Hchildren & _).
  { intros entry Hin _. unfold recognized_nutrition in Hin.
    repeat (apply elem_of_cons in Hin as [->|Hin]; [vm_compute; eexists; reflexivity|]).
    by apply elem_of_nil in Hin. }
  exists w'. split; [exact Hrun|]. rewrite Hchildren. by vm_compute.
Defined.

Lemma bind_run {A B} (c : Cmd A) (k : A -> Cmd B) w w' a :
  c w = (w', inr a) -> bind c k w = k a w'.
Proof. intros Hrun. unfold bind. by rewrite Hrun. Qed.

Lemma assign_textContent_run sel v s w :
  to_textContent v = inr s ->
  assign_textContent sel v w = (on_element sel (set_textContent s) w, inr tt).
Proof. intros Htext. unfold assign_textContent, bind, eval. by rewrite Htext. Qed.

(** A defaulted text field: [v || 'literal'] always has a text when [v] has
    one, the literal as soon as [v] is falsy. *)
Lemma to_textContent_or_else v literal :
  printable v ->
  ∃ s, to_textContent (or_else v (JStr literal)) = inr s
       ∧ (¬ truthy v -> s = literal).
Proof.
  intros [s Hs]. apply text_of_Some in Hs. unfold or_else.
  destruct (truthy v) eqn:Htruthy.
  - exists s. split; [|by intros []]. destruct v; try done.
  - exists literal. split; [done|]. done.
Qed.

Ltac frame_recipe :=
  repeat first
    [ apply preserves_displayIngredients; done
    | apply preserves_displayEquipment; done
    | apply preserves_displayInstructions; done
    | apply preserves_displayTips; done
    | apply preserves_displayNutrition; done
    | apply preserves_displayVariations; done
    | frame_step ].

Lemma set_textContent_children s e :
  s ≠ "" -> children (set_textContent s e) = [TextNode s].
Proof. intros Hne. unfold set_textContent. by rewrite bool_decide_eq_false_2. Qed.

Lemma append_nonempty s suffix : suffix ≠ "" -> s +:+ suffix ≠ "".
Proof. intros Hne. destruct s; [done|]. discriminate. Qed.

(** Once the title and the description are written, line 263 writes the text
    of [totalTime || cookTime] followed by " min", and nothing later in
    [displayRecipe] touches that element, even when a later statement throws. *)
Lemma displayRecipe_totalTime (recipe : gmap string JSValue) (w : World) (s : string) :
  printable (field recipe "title") ->
  printable (field recipe "description") ->
  ToString (or_else (field recipe "totalTime") (field recipe "cookTime")) = inr s ->
  children (element "recipeTotalTime" (document (fst (displayRecipe (JObj recipe) w))))
  = [TextNode (s +:+ " min")].
Proof.
  intros Htitle Hdescription Htime.
  destruct (to_textContent_or_else _ "Generated Recipe" Htitle) as (s1 & Hs1 & _).
  destruct (to_textContent_or_else _ "" Hdescription) as (s2 & Hs2 & _).
  unfold displayRecipe. rewrite !bind_exec. cbn [get].
  repeat change (default JUndefined (recipe !! ?k)) with (field recipe k).
  rewrite bind_eval, (bind_run _ _ _ _ _ (assign_textContent_run _ _ _ _ Hs1)).
  rewrite bind_eval, (bind_run _ _ _ _ _ (assign_textContent_run _ _ _ _ Hs2)).
  rewrite !bind_eval, Htime, bind_eval, bind_exec.
  match goal with
  | |- context [fst (?c ?w)] =>
      assert (Hframe : preserves "recipeTotalTime" c) by frame_recipe;
      rewrite (Hframe w)
  end.
  rewrite element_on_element_eq. apply set_textContent_children.
  by apply append_nonempty.
Qed.

(** C5, as the code has it. When the title and description of the response
    convert to text, the total-time line shows the text of [totalTime] followed
    by " min" when [totalTime] is truthy, and otherwise that of [cookTime]
    followed by " min" when [cookTime] is truthy. *)
Theorem displayRecipe_totalTime_prefers_truthy (recipe : gmap string JSValue) (w : World) :
  printable (field recipe "title") ->
  printable (field recipe "description") ->
  let shown :=
    children (element "recipeTotalTime" (document (fst (displayRecipe (JObj recipe) w)))) in
  (∀ s, truthy (field recipe "totalTime") ->
        text_of (field recipe "totalTime") = Some s ->
        shown = [TextNode (s +:+ " min")])
  ∧ (∀ s, ¬ truthy (field recipe "totalTime") ->
          truthy (field recipe "cookTime") ->
          text_of (field recipe "cookTime") = Some s ->
          shown = [TextNode (s +:+ " min")]).
Proof.
  intros Htitle Hdescription shown. subst shown.
  split; intros s.
  - intros Htruthy Htext. apply displayRecipe_totalTime; [done..|].
    unfold or_else. destruct (truthy (field recipe "totalTime")); [|done].
    by apply text_of_Some.
  - intros Hfalsy _ Htext. apply displayRecipe_totalTime; [done..|].
    unfold or_else. destruct (truthy (field recipe "totalTime")); [by destruct Hfalsy|].
    by apply text_of_Some.
Qed.

Lemma displayRecipe_totalTime_prefers_truthy_witness :
  let shown (recipe : gmap string JSValue) :=
    children (element "recipeTotalTime"
                (document (fst (displayRecipe (JObj recipe) (page [] "30" "4"))))) in
  shown {[ "title" := JStr "Soup"; "totalTime" := JNum (Int 45); "cookTime" := JNum (Int 30) ]}
  = [TextNode "45 min"]
  ∧ shown {[ "cookTime" := JNum (Int 30) ]} = [TextNode "30 min"].
Proof.
  intros shown. split.
  - refine (proj1 (displayRecipe_totalTime_prefers_truthy _ _ _ _) "45" _ _);
      by vm_compute; eauto.
  - refine (proj2 (displayRecipe_totalTime_prefers_truthy _ _ _ _) "30" _ _ _);
      by vm_compute; eauto.
Defined.

(** C5, as the specification has it, fails twice.  With [totalTime: 0] and
    [cookTime: 20] the field [totalTime] is there, yet the line shows the cook
    time; with neither field the line is not empty. *)
Lemma totalTime_not_as_specified :
  let shown (recipe : gmap string JSValue) :=
    children (element "recipeTotalTime"
                (document (fst (displayRecipe (JObj recipe) (page [] "30" "4"))))) in
  let zero : gmap string JSValue :=
    {[ "totalTime" := JNum (Int 0); "cookTime" := JNum (Int 20) ]} in
  shown zero = [TextNode "20 min"]
  ∧ specified_totalTime zero = "0 min"
  ∧ shown zero ≠ [TextNode (specified_totalTime zero)]
  ∧ shown ∅ = [TextNode "undefined min"]
  ∧ specified_totalTime ∅ = ""
  ∧ shown ∅ ≠ [].
Proof. by vm_compute. Qed.

Ltac run_assign :=
  match goal with
  | |- context [bind (assign_textContent ?sel ?v) ?k ?w] =>
      rewrite (bind_run _ k w _ tt (assign_textContent_run sel v _ w eq_refl))
  end.

Ltac run :=
  repeat first
    [ rewrite bind_exec
    | rewrite bind_eval
    | run_assign
    | progress cbn [default or_else truthy ToString to_textContent number_to_string] ].

(** C6. On the empty response [{}], from any state of the page,
    [displayRecipe] returns without throwing and leaves "Medium" as difficulty,
    "Mixed" as cuisine, "Store in refrigerator" as storage, the one placeholder
    suggestion as the only variation and the one placeholder line as the
    nutrition section. *)
Theorem displayRecipe_empty_response (w : World) :
  ∃ w',
    displayRecipe (JObj ∅) w = (w', inr tt)
    ∧ children (element "recipeDifficulty" (document w')) = [TextNode "Medium"]
    ∧ children (element "recipeCuisine" (document w')) = [TextNode "Mixed"]
    ∧ children (element "recipeStorage" (document w')) = [TextNode "Store in refrigerator"]
    ∧ children (element "recipeVariations" (document w'))
      = [Li "Try adding different spices or substituting ingredients to make it your own!"]
    ∧ children (element "recipeNutrition" (document w'))
      = [Paragraph "Nutrition information not available"].
Proof.
  unfold displayRecipe. cbn [get]. rewrite !lookup_empty.
  run.
  rewrite (bind_run _ _ _ _ _ (eq_refl : displayIngredients (JArr []) _ = (_, inr tt))). run.
  rewrite (bind_run _ _ _ _ _ (eq_refl : displayEquipment (JArr []) _ = (_, inr tt))). run.
  rewrite (bind_run _ _ _ _ _ (eq_refl : displayInstructions (JArr []) _ = (_, inr tt))). run.
  rewrite (bind_run _ _ _ _ _ (eq_refl : displayTips (JArr []) _ = (_, inr tt))). run.
  match goal with
  | |- context [bind (displayNutrition (JObj ∅)) _ ?w1] =>
      destruct (displayNutrition_object ∅ w1) as (w2 & Hrun & Hnutrition & Hframe)
  end.
  { intros entry _ Htruthy. unfold field in Htruthy. by rewrite lookup_empty in Htruthy. }
  rewrite (bind_run _ _ _ _ _ Hrun). run.
  eexists. split; [reflexivity|].
  cbn [fst].
  repeat split.
  all: repeat first
         [ rewrite element_on_element_eq
         | rewrite element_on_element_ne by done
         | rewrite Hframe by done
         | rewrite Hnutrition ].
  all: by vm_compute.
Qed.

(** ** Service failures *)

Lemma document_setTimeout cb delay w : document (setTimeout cb delay w) = document w.
Proof. done. Qed.

Lemma get_defined v k a k' : get v k = inr a -> ∃ b, get v k' = inr b.
Proof. destruct v; try done; by eexists. Qed.

(** What the [catch] block of [generateRecipe] passes to [showError] when the
    service fails: the message of what reading [error] throws, or else of the
    [Error] built from [error || fallback]. *)
Lemma generateRecipe_resume_failure status body (w : World) :
  failure (Responded status body) ->
  generateRecipe_resume (Responded status body) w
  = setLoadingState false
      (showError
         (match get (error_source body) "error" with
          | inl e => caught_message e
          | inr error => surfaced error (fallback_of status)
          end) w).
Proof.
  intros Hfail. unfold generateRecipe_resume, finally, try_catch, surfaced, caught_message.
  inversion Hfail as [status' body' Hok|status' response success Hok Hsuccess Hfalsy]; subst.
  - unfold fetchAPI, fallback_of. rewrite Hok. cbn [negb].
    fold (error_source body).
    destruct (get _ "error") as [e|error]; [done|]. cbn [bindC].
    by destruct (ToString _) as [e|msg].
  - unfold fetchAPI, fallback_of, error_source. rewrite Hok. cbn [negb]. rewrite bind_eval.
    rewrite Hsuccess, bind_eval, Hfalsy.
    destruct (get_defined _ _ _ "error" Hsuccess) as [error Herror].
    rewrite Herror, bind_eval.
    by destruct (ToString _) as [e|msg].
Qed.

Lemma caught_message_ne (e : Exn) : caught_message e ≠ "".
Proof. unfold caught_message. by case_bool_decide. Qed.

Lemma surfaced_string s fallback : s ≠ "" -> surfaced (JStr s) fallback = s.
Proof.
  intros Hs. unfold surfaced, caught_message, or_else. cbn [truthy].
  rewrite (bool_decide_eq_false_2 _ Hs). cbn [negb ToString message].
  by rewrite (bool_decide_eq_false_2 _ Hs).
Qed.

Lemma surfaced_falsy error fallback :
  ¬ truthy error -> fallback ≠ "" -> surfaced error fallback = fallback.
Proof.
  intros Hfalsy Hfallback. unfold surfaced, caught_message, or_else.
  destruct (truthy error); [by destruct Hfalsy|]. cbn [ToString message].
  by rewrite bool_decide_eq_false_2.
Qed.

Lemma fallback_of_nonempty status : fallback_of status ≠ "".
Proof. unfold fallback_of. by destruct (ok status). Qed.

Lemma errorText_after_failure msg w :
  msg ≠ "" ->
  children (element "errorText" (document (setLoadingState false (showError msg w))))
  = [TextNode msg].
Proof.
  intros Hmsg. unfold setLoadingState, showError.
  rewrite element_on_element_ne, document_setTimeout by done.
  rewrite element_on_element_ne, element_on_element_eq by done.
  by apply set_textContent_children.
Qed.

(** C8. A response outside 2xx whose body is the JSON [null] does not get the
    fallback its siblings get: reading [errorData.error] throws, and the banner
    shows the runtime's text, where the empty object and a body that does not
    parse (replaced by [{}] in [fetchAPI]) both show "HTTP error! status: N". *)
Theorem null_error_body_misses_the_fallback (status : Z) (w : World) :
  ok status = false ->
  let shown body :=
    children (element "errorText"
                (document (generateRecipe_resume (Responded status body) w))) in
  shown (JSON JNull) = [TextNode "Cannot read properties of null (reading 'error')"]
  ∧ shown (JSON (JObj ∅)) = [TextNode ("HTTP error! status: " +:+ pretty status)]
  ∧ (∀ syntaxError,
       shown (NotJSON syntaxError) = [TextNode ("HTTP error! status: " +:+ pretty status)]).
Proof.
  intros Hok shown. subst shown. cbn beta.
  assert (Hfallback : surfaced JUndefined ("HTTP error! status: " +:+ pretty status)
                      = "HTTP error! status: " +:+ pretty status).
  { apply surfaced_falsy; [by intros []|done]. }
  refine (conj _ (conj _ _)).
  - rewrite generateRecipe_resume_failure by by apply failure_status.
    by rewrite errorText_after_failure.
  - rewrite generateRecipe_resume_failure by by apply failure_status.
    cbn [error_source get]. unfold fallback_of. rewrite lookup_empty, Hok. cbn [default].
    rewrite Hfallback. by apply errorText_after_failure.
  - intros syntaxError. rewrite generateRecipe_resume_failure by by apply failure_status.
    cbn [error_source get]. unfold fallback_of. rewrite lookup_empty, Hok. cbn [default].
    rewrite Hfallback. by apply errorText_after_failure.
Qed.

Lemma null_error_body_misses_the_fallback_witness :
  let shown body :=
    children (element "errorText"
                (document (generateRecipe_resume (Responded 500 body)
                                                 (page ["egg"] "30" "4")))) in
  ok 500 = false
  ∧ shown (JSON JNull) = [TextNode "Cannot read properties of null (reading 'error')"]
  ∧ shown (NotJSON "Unexpected end of JSON input") = [TextNode "HTTP error! status: 500"].
Proof.
  intros shown.
  destruct (null_error_body_misses_the_fallback 500 (page ["egg"] "30" "4") eq_refl)
    as (Hnull & _ & Hsibling).
  refine (conj eq_refl (conj Hnull _)).
  subst shown. cbn beta. rewrite Hsibling. by vm_compute.
Defined.

(** * Further properties of the controller *)

Ltac in_literal := apply (bool_decide_unpack _); by vm_compute.
Ltac not_in_literal :=
  let Hin := fresh "Hin" in
  intros Hin; apply (bool_decide_pack _) in Hin; by vm_compute in Hin.

(** ** [generateRecipe]: validation failure, clean-up, outcomes *)

Lemma validateForm_join_nonempty (data : Payload.t) :
  validateForm data ≠ [] -> join_with ". " (validateForm data) ≠ "".
Proof.
  destruct data as [ings time serv ? ? ? ? ?]. unfold validateForm, gt, lt. simpl.
  destruct ings as [|i ings]; simpl;
    destruct time as [|t]; simpl; try destruct ((t <? 5) || (480 <? t));
    destruct serv as [|s]; simpl; try destruct ((s <? 1) || (20 <? s)); done.
Qed.

Lemma banner_after_showError msg w :
  msg ≠ "" ->
  children (element "errorText" (document (showError msg w))) = [TextNode msg]
  ∧ ¬ classList_contains "hidden" (element "errorMessage" (document (showError msg w))).
Proof.
  intros Hmsg. unfold showError. rewrite !document_setTimeout. split.
  - rewrite element_on_element_ne, element_on_element_eq by done.
    by apply set_textContent_children.
  - rewrite element_on_element_eq.
    unfold classList_contains, classList_remove. cbn [classList set_classList].
    rewrite bool_decide_eq_false_2; [by intros []|].
    intros Hin. by apply list_elem_of_filter in Hin as [? _].
Qed.

Lemma showError_frame msg w sel :
  sel ∉ ["errorText"; "errorMessage"] ->
  element sel (document (showError msg w)) = element sel (document w).
Proof.
  intros Hsel. unfold showError. rewrite document_setTimeout.
  rewrite !element_on_element_ne; [done|..]; intros <-; apply Hsel; in_literal.
Qed.

(** X1. When the form does not validate, [generateRecipe] returns at once: it
    calls [fetch] not at all, suspends nothing, leaves the button, the form and
    the lists alone, and shows the violated rules' messages joined by ". " in
    the banner. *)
Theorem generateRecipe_invalid_form_sends_nothing (w : World) :
  validateForm (collectFormData w) ≠ [] ->
  let w' := generateRecipe_submit w in
  fetched w' = fetched w
  ∧ suspended w' = suspended w
  ∧ recipeGenerator w' = recipeGenerator w
  ∧ element "generateBtn" (document w') = element "generateBtn" (document w)
  ∧ collectFormData w' = collectFormData w
  ∧ children (element "errorText" (document w'))
    = [TextNode (join_with ". " (validateForm (collectFormData w)))]
  ∧ ¬ classList_contains "hidden" (element "errorMessage" (document w')).
Proof.
  intros Hinvalid w'. subst w'. unfold generateRecipe_submit.
  rewrite bool_decide_eq_true_2
    by (destruct (validateForm (collectFormData w)); [done|simpl; lia]).
  pose proof (validateForm_join_nonempty _ Hinvalid) as Hmsg.
  destruct (banner_after_showError _ w Hmsg) as [Htext Hvisible].
  refine (conj _ (conj _ (conj _ (conj _ (conj _ (conj Htext Hvisible)))))); try reflexivity.
  - apply showError_frame. not_in_literal.
  - unfold showError.
    change (collectFormData (setTimeout ?cb ?d ?w0)) with (collectFormData w0).
    rewrite !collectFormData_on_element; [done|..];
      intros Hin; apply (bool_decide_pack _) in Hin; by vm_compute in Hin.
Qed.

Lemma generateRecipe_invalid_form_sends_nothing_witness :
  let w := page [] "3" "4" in
  fetched (generateRecipe_submit w) = []
  ∧ children (element "errorText" (document (generateRecipe_submit w)))
    = [TextNode "Please add at least one ingredient. Cooking time must be between 5 and 480 minutes"].
Proof.
  intros w.
  assert (Hinvalid : validateForm (collectFormData w) ≠ []) by (by vm_compute).
  destruct (generateRecipe_invalid_form_sends_nothing w Hinvalid)
    as (Hfetched & _ & _ & _ & _ & Htext & _).
  split; [exact Hfetched|]. rewrite Htext. by vm_compute.
Defined.

(** X2. Whatever the outcome of the request, and whether rendering returns
    or throws, [generateRecipe] ends with the button enabled and without the
    class [loading]. *)
Theorem generateRecipe_always_clears_loading (o : FetchOutcome) (w : World) :
  let w' := generateRecipe_resume o w in
  disabled (element "generateBtn" (document w')) = false
  ∧ ¬ classList_contains "loading" (element "generateBtn" (document w')).
Proof.
  intros w'. subst w'. unfold generateRecipe_resume, finally.
  destruct (try_catch _ _ w) as [w1 r]. cbn [fst]. unfold setLoadingState.
  rewrite element_on_element_eq. split; [done|].
  unfold classList_contains, classList_remove. cbn [classList set_classList set_disabled].
  rewrite bool_decide_eq_false_2; [by intros []|].
  intros Hin. by apply list_elem_of_filter in Hin as [? _].
Qed.

(** ** The renderer only writes to its own elements *)

Lemma with_document_same w : with_document (document w) w = w.
Proof. by destruct w. Qed.

Lemma document_only_ret {A} (a : A) : document_only (ret a).
Proof. intros w. exists (document w). by rewrite with_document_same. Qed.

Lemma document_only_raise {A} (e : Exn) : document_only (raise e : Cmd A).
Proof. intros w. exists (document w). by rewrite with_document_same. Qed.

Lemma document_only_eval {A} (c : Completion A) : document_only (eval c).
Proof. intros w. exists (document w). by rewrite with_document_same. Qed.

Lemma document_only_on_element sel f : document_only (exec (on_element sel f)).
Proof. intros w. by eexists. Qed.

Lemma document_only_bind {A B} (c : Cmd A) (k : A -> Cmd B) :
  document_only c -> (∀ a, document_only (k a)) -> document_only (bind c k).
Proof.
  intros Hc Hk w. unfold bind. destruct (Hc w) as [doc Hdoc].
  destruct (c w) as [w1 [e|a]]; cbn [fst] in *; [by exists doc|].
  destruct (Hk a w1) as [doc' Hdoc']. exists doc'. by rewrite Hdoc', Hdoc.
Qed.

Lemma document_only_forEach {A} (f : A -> Cmd unit) (xs : list A) :
  (∀ x, document_only (f x)) -> document_only (forEach f xs).
Proof.
  intros Hf. induction xs as [|x xs IH]; [apply document_only_ret|].
  simpl. apply document_only_bind; [apply Hf|]. by intros _.
Qed.

Ltac document_only_step :=
  first
    [ apply document_only_bind; [|intros ?]
    | apply document_only_forEach; intros ?
    | apply document_only_eval
    | apply document_only_ret
    | apply document_only_raise
    | apply document_only_on_element
    | match goal with
      | |- document_only (if ?b then _ else _) => destruct b
      end ].

Lemma document_only_displayRecipe recipe : document_only (displayRecipe recipe).
Proof.
  unfold displayRecipe, assign_textContent, displayIngredients, displayEquipment,
    displayInstructions, displayTips, displayNutrition, displayVariations.
  repeat document_only_step.
  intros w. destruct (innerHTML_is_empty _).
  - by eexists.
  - exists (document w). by rewrite with_document_same.
Qed.

Lemma preserves_displayRecipe sel recipe :
  sel ∉ recipe_selectors -> preserves sel (displayRecipe recipe).
Proof.
  intros Hsel.
  assert (Hne : ∀ x, x ∈ recipe_selectors -> x ≠ sel) by (by intros x Hx ->).
  unfold displayRecipe.
  repeat first
    [ apply preserves_displayIngredients; symmetry; apply Hne; in_literal
    | apply preserves_displayEquipment; symmetry; apply Hne; in_literal
    | apply preserves_displayInstructions; symmetry; apply Hne; in_literal
    | apply preserves_displayTips; symmetry; apply Hne; in_literal
    | apply preserves_displayNutrition; symmetry; apply Hne; in_literal
    | apply preserves_displayVariations; symmetry; apply Hne; in_literal
    | apply preserves_on_element; apply Hne; in_literal
    | frame_step ].
Qed.

Lemma displayRecipe_frame (recipe : JSValue) (w : World) :
  timers (fst (displayRecipe recipe w)) = timers w
  ∧ ∀ sel, sel ∉ recipe_selectors ->
      element sel (document (fst (displayRecipe recipe w))) = element sel (document w).
Proof.
  destruct (document_only_displayRecipe recipe w) as [doc Hdoc].
  split; [by rewrite Hdoc|]. intros sel Hsel. by apply preserves_displayRecipe.
Qed.

(** X3. Rendering a response, whatever it is and whether it succeeds or
    throws part-way, changes nothing but the document, and in the document
    nothing but the fifteen elements of the result view: the ingredient list,
    the equipment selection, the requests sent, the suspended calls, the timers
    and every form field are as before, so the payload the form would send is
    the same. *)
Theorem displayRecipe_touches_only_the_result_view (recipe : JSValue) (w : World) :
  let w' := fst (displayRecipe recipe w) in
  recipeGenerator w' = recipeGenerator w
  ∧ fetched w' = fetched w
  ∧ suspended w' = suspended w
  ∧ timers w' = timers w
  ∧ (∀ sel, sel ∉ recipe_selectors -> element sel (document w') = element sel (document w))
  ∧ collectFormData w' = collectFormData w.
Proof.
  intros w'. subst w'.
  destruct (document_only_displayRecipe recipe w) as [doc Hdoc].
  assert (Hframe : ∀ sel, sel ∉ recipe_selectors ->
            element sel (document (fst (displayRecipe recipe w))) = element sel (document w)).
  { intros sel Hsel. by apply preserves_displayRecipe. }
  refine (conj _ (conj _ (conj _ (conj _ (conj Hframe _))))); try by rewrite Hdoc.
  unfold collectFormData. rewrite !Hframe by not_in_literal. by rewrite Hdoc.
Qed.

Lemma displayRecipe_touches_only_the_result_view_witness :
  let w := typeIngredient "salt" (page ["egg"] "45" "2") in
  let w' := fst (displayRecipe (JObj {[ "title" := JStr "Omelette"; "tips" := JNum (Int 3) ]}) w) in
  value (element "ingredientInput" (document w')) = "salt"
  ∧ Payload.cookingTime (collectFormData w') = Int 45.
Proof.
  intros w w'.
  destruct (displayRecipe_touches_only_the_result_view
              (JObj {[ "title" := JStr "Omelette"; "tips" := JNum (Int 3) ]}) w)
    as (_ & _ & _ & _ & Hframe & Hform).
  split.
  - unfold w'. rewrite Hframe by not_in_literal. by vm_compute.
  - unfold w'. rewrite Hform. by vm_compute.
Defined.

(** ** [generateRecipe] after the response *)

Lemma displayRecipe_switches_view (recipe : JSValue) (w : World) :
  let w1 := fst (displayRecipe recipe w) in
  style_display (element ".form-container" (document w1)) = "none"
  ∧ ¬ classList_contains "hidden" (element "recipeResult" (document w1)).
Proof.
  intros w1. subst w1. unfold displayRecipe. rewrite !bind_exec.
  set (w2 := on_element "recipeResult" _ _).
  match goal with
  | |- context [fst (?c w2)] =>
      assert (Hform : preserves ".form-container" c) by frame_recipe;
      assert (Hresult : preserves "recipeResult" c) by frame_recipe;
      rewrite (Hform w2), (Hresult w2)
  end.
  subst w2. split.
  - by rewrite element_on_element_ne, element_on_element_eq.
  - rewrite element_on_element_eq.
    unfold classList_contains, classList_remove. cbn [classList set_classList].
    rewrite bool_decide_eq_false_2; [by intros []|].
    intros Hin. by apply list_elem_of_filter in Hin as [? _].
Qed.

(** The message the [catch] block of [generateRecipe] shows for [e]. *)
Lemma caught_message_nonempty (e : Exn) :
  (if bool_decide (message e = "")
   then "Failed to generate recipe. Please try again."
   else message e) ≠ "".
Proof. by case_bool_decide. Qed.

Lemma setLoadingState_frame loading w sel :
  sel ≠ "generateBtn" ->
  element sel (document (setLoadingState loading w)) = element sel (document w).
Proof.
  intros Hne. unfold setLoadingState.
  destruct loading; by rewrite element_on_element_ne.
Qed.

Lemma generateRecipe_resume_success o response success data (w : World) :
  fetchAPI o = inr response ->
  get response "success" = inr success ->
  truthy success ->
  get response "data" = inr data ->
  generateRecipe_resume o w
  = setLoadingState false
      (match displayRecipe data w with
       | (w1, inr _) => scrollToRecipe w1
       | (w1, inl e) =>
           showError (if bool_decide (message e = "")
                      then "Failed to generate recipe. Please try again."
                      else message e) w1
       end).
Proof.
  intros Hfetch Hsuccess Htruthy Hdata.
  unfold generateRecipe_resume, finally, try_catch.
  rewrite Hfetch, bind_eval, Hsuccess, bind_eval.
  destruct (truthy success); [|done].
  rewrite Hdata, bind_eval. unfold bind.
  by destruct (displayRecipe data w) as [w1 [e|[]]].
Qed.

(** X4. When the response is a success ([success] truthy), the view is
    switched to the result before anything of [data] is read: the form
    container is hidden and the result section shown even if rendering throws
    later on.  If rendering returns, the banner is as it was and one scroll
    timer of 100 ms is registered; if it throws, the banner shows the
    exception's message over the result view. *)
Theorem success_switches_view_before_rendering o response success data (w : World) :
  fetchAPI o = inr response ->
  get response "success" = inr success ->
  truthy success ->
  get response "data" = inr data ->
  let w' := generateRecipe_resume o w in
  style_display (element ".form-container" (document w')) = "none"
  ∧ ¬ classList_contains "hidden" (element "recipeResult" (document w'))
  ∧ (∀ w1, displayRecipe data w = (w1, inr tt) ->
       timers w' = timers w ++ [(100, ScrollToRecipe)]
       ∧ element "errorText" (document w') = element "errorText" (document w)
       ∧ element "errorMessage" (document w') = element "errorMessage" (document w))
  ∧ (∀ w1 e, displayRecipe data w = (w1, inl e) ->
       message e ≠ "" ->
       children (element "errorText" (document w')) = [TextNode (message e)]
       ∧ ¬ classList_contains "hidden" (element "errorMessage" (document w'))).
Proof.
  intros Hfetch Hsuccess Htruthy Hdata w'. subst w'.
  rewrite (generateRecipe_resume_success _ _ _ _ w Hfetch Hsuccess Htruthy Hdata).
  destruct (displayRecipe_switches_view data w) as [Hform Hresult].
  pose proof (displayRecipe_frame data w) as Haux.
  destruct (displayRecipe data w) as [w1 [e|[]]] eqn:Hrun; cbn [fst] in *.
  - refine (conj _ (conj _ (conj _ _))).
    + by rewrite setLoadingState_frame, showError_frame by (done || not_in_literal).
    + by rewrite setLoadingState_frame, showError_frame by (done || not_in_literal).
    + by intros w2 [=].
    + intros w2 e' [= <- <-] Hmsg. rewrite !setLoadingState_frame by done.
      rewrite bool_decide_eq_false_2 by done. by apply banner_after_showError.
  - destruct Haux as (Htimers & Hframe).
    refine (conj _ (conj _ (conj _ _))).
    + by rewrite setLoadingState_frame by done.
    + by rewrite setLoadingState_frame by done.
    + intros w2 _. rewrite !setLoadingState_frame by done.
      unfold scrollToRecipe. rewrite document_setTimeout.
      refine (conj _ (conj _ _)); [|apply Hframe; not_in_literal..].
      unfold setLoadingState, setTimeout.
      cbn [timers on_element with_document with_timers]. by rewrite Htimers.
    + by intros w2 e [=].
Qed.

Lemma success_switches_view_before_rendering_witness :
  let w := page ["egg"] "30" "4" in
  let w' := generateRecipe_resume
              (Responded 200 (JSON (JObj {[ "success" := JBool true ]}))) w in
  style_display (element ".form-container" (document w')) = "none"
  ∧ children (element "errorText" (document w'))
    = [TextNode "Cannot read properties of undefined (reading 'title')"].
Proof.
  intros w w'.
  destruct (success_switches_view_before_rendering
              (Responded 200 (JSON (JObj {[ "success" := JBool true ]})))
              (JObj {[ "success" := JBool true ]}) (JBool true) JUndefined w)
    as (Hform & _ & _ & Hthrow); [by vm_compute..|].
  split; [exact Hform|].
  apply (Hthrow (fst (displayRecipe JUndefined w))
                (Error "Cannot read properties of undefined (reading 'title')"));
    by vm_compute.
Defined.

(** X5. [generateRecipe] ends in one of two ways, whatever the request
    brought back.  Either the response was a success and its [data] rendered
    without a throw, and then nothing follows the rendering but a scroll timer
    and the release of the button; or the banner is visible with exactly one
    message, which is never empty. *)
Theorem generateRecipe_renders_or_reports (o : FetchOutcome) (w : World) :
  let w' := generateRecipe_resume o w in
  (∃ response success data w1,
     fetchAPI o = inr response
     ∧ get response "success" = inr success
     ∧ truthy success
     ∧ get response "data" = inr data
     ∧ displayRecipe data w = (w1, inr tt)
     ∧ w' = setLoadingState false (scrollToRecipe w1))
  ∨ (∃ msg,
       msg ≠ ""
       ∧ children (element "errorText" (document w')) = [TextNode msg]
       ∧ ¬ classList_contains "hidden" (element "errorMessage" (document w'))).
Proof.
  intros w'. subst w'.
  assert (Hreport : ∀ e w1,
            generateRecipe_resume o w
            = setLoadingState false
                (showError (if bool_decide (message e = "")
                            then "Failed to generate recipe. Please try again."
                            else message e) w1) ->
            ∃ msg, msg ≠ ""
              ∧ children (element "errorText" (document (generateRecipe_resume o w)))
                = [TextNode msg]
              ∧ ¬ classList_contains "hidden"
                    (element "errorMessage" (document (generateRecipe_resume o w)))).
  { intros e w1 ->. eexists. split; [apply (caught_message_nonempty e)|].
    rewrite !setLoadingState_frame by done.
    apply banner_after_showError, caught_message_nonempty. }
  destruct (fetchAPI o) as [e|response] eqn:Hfetch.
  { right. apply (Hreport e w).
    unfold generateRecipe_resume, finally, try_catch. by rewrite Hfetch. }
  destruct (get response "success") as [e|success] eqn:Hsuccess.
  { right. apply (Hreport e w).
    unfold generateRecipe_resume, finally, try_catch.
    by rewrite Hfetch, bind_eval, Hsuccess. }
  destruct (truthy success) eqn:Htruthy.
  - destruct (get_defined _ _ _ "data" Hsuccess) as [data Hdata].
    pose proof (generateRecipe_resume_success o response success data w Hfetch Hsuccess) as Hrun.
    rewrite Htruthy in Hrun. specialize (Hrun I Hdata).
    destruct (displayRecipe data w) as [w1 [e|[]]] eqn:Hrender.
    + right. by apply (Hreport e w1).
    + left. exists response, success, data, w1. by rewrite Htruthy.
  - destruct (get_defined _ _ _ "error" Hsuccess) as [error Herror].
    right.
    destruct (ToString (or_else error (JStr "Failed to generate recipe"))) as [e|msg] eqn:Htext.
    + apply (Hreport e w).
      unfold generateRecipe_resume, finally, try_catch.
      by rewrite Hfetch, bind_eval, Hsuccess, bind_eval, Htruthy, Herror, bind_eval, Htext.
    + apply (Hreport (Error msg) w).
      unfold generateRecipe_resume, finally, try_catch.
      by rewrite Hfetch, bind_eval, Hsuccess, bind_eval, Htruthy, Herror, bind_eval, Htext.
Qed.

(** X21. When the service answers outside 2xx, or within 2xx with a falsy
    [success], [generateRecipe] ends with exactly one message in the error
    banner, which is visible and not empty.  Where reading [error] succeeds,
    the message is what [error || fallback] gives: the [error] text when that
    is a non-empty string, the fallback of the failing path when [error] is
    absent or otherwise falsy; where reading [error] throws, it is the message
    of what was thrown.  The form container and the result section stay as
    they were, so the view is not switched to the result; nothing but the
    banner and the button changes, the button is enabled again and no recipe
    is rendered. *)
Theorem service_failure_surfaces_one_message status body (w : World) :
  failure (Responded status body) ->
  let w' := generateRecipe_resume (Responded status body) w in
  ∃ msg,
    msg ≠ ""
    ∧ children (element "errorText" (document w')) = [TextNode msg]
    ∧ ¬ classList_contains "hidden" (element "errorMessage" (document w'))
    ∧ (∀ error, get (error_source body) "error" = inr error ->
         msg = surfaced error (fallback_of status)
         ∧ (∀ s, error = JStr s -> s ≠ "" -> msg = s)
         ∧ (¬ truthy error -> msg = fallback_of status))
    ∧ (∀ e, get (error_source body) "error" = inl e -> msg = caught_message e)
    ∧ element ".form-container" (document w') = element ".form-container" (document w)
    ∧ element "recipeResult" (document w') = element "recipeResult" (document w)
    ∧ (∀ sel, sel ∉ ["errorText"; "errorMessage"; "generateBtn"] ->
         element sel (document w') = element sel (document w))
    ∧ disabled (element "generateBtn" (document w')) = false
    ∧ timers w' = timers w ++ [(8000, HideError)]
    ∧ recipeGenerator w' = recipeGenerator w
    ∧ fetched w' = fetched w.
Proof.
  intros Hfail w'. subst w'. rewrite (generateRecipe_resume_failure _ _ w Hfail).
  pose proof (fallback_of_nonempty status) as Hfallback.
  set (msg := match get _ "error" with inl e => _ | inr error => _ end).
  assert (Hmsg : msg ≠ "").
  { subst msg. destruct (get _ "error"); apply caught_message_ne. }
  exists msg.
  refine (conj Hmsg (conj _ (conj _ (conj _ (conj _ (conj _ (conj _ (conj _ (conj _
            (conj _ (conj _ _))))))))))).
  - by apply errorText_after_failure.
  - unfold setLoadingState, showError.
    rewrite element_on_element_ne, document_setTimeout by done.
    rewrite element_on_element_eq.
    unfold classList_contains, classList_remove. cbn [classList set_classList].
    rewrite bool_decide_eq_false_2; [by intros []|].
    intros Hin. by apply list_elem_of_filter in Hin as [? _].
  - intros error Herror. subst msg. rewrite Herror.
    refine (conj eq_refl (conj _ _)).
    + intros s -> Hs. by apply surfaced_string.
    + intros Hfalsy. by apply surfaced_falsy.
  - intros e He. subst msg. by rewrite He.
  - unfold setLoadingState, showError.
    rewrite element_on_element_ne, document_setTimeout by done.
    by rewrite !element_on_element_ne.
  - unfold setLoadingState, showError.
    rewrite element_on_element_ne, document_setTimeout by done.
    by rewrite !element_on_element_ne.
  - intros sel Hsel. unfold setLoadingState, showError.
    rewrite element_on_element_ne, document_setTimeout by (intros <-; apply Hsel; set_solver).
    rewrite !element_on_element_ne by (intros <-; apply Hsel; set_solver). done.
  - unfold setLoadingState. by rewrite element_on_element_eq.
  - done.
  - done.
  - done.
Qed.

Lemma service_failure_surfaces_one_message_witness :
  let w := page ["egg"] "30" "4" in
  let shown o := children (element "errorText" (document (generateRecipe_resume o w))) in
  shown (Responded 500 (JSON (JObj {[ "error" := JStr "Model overloaded" ]})))
  = [TextNode "Model overloaded"]
  ∧ shown (Responded 404 (NotJSON "Unexpected token < in JSON at position 0"))
    = [TextNode "HTTP error! status: 404"]
  ∧ shown (Responded 200 (JSON (JObj {[ "success" := JBool false ]})))
    = [TextNode "Failed to generate recipe"]
  ∧ shown (Responded 400 (JSON (JObj {[ "error" := JNum (Int 42) ]})))
    = [TextNode "42"].
Proof.
  intros w shown. refine (conj _ (conj _ (conj _ _))).
  - destruct (service_failure_surfaces_one_message
                500 (JSON (JObj {[ "error" := JStr "Model overloaded" ]})) w)
      as (msg & _ & Hshown & _ & Htext & _).
    { apply failure_status; by vm_compute. }
    unfold shown. rewrite Hshown.
    destruct (Htext (JStr "Model overloaded") eq_refl) as (_ & Hstring & _).
    by rewrite (Hstring "Model overloaded").
  - destruct (service_failure_surfaces_one_message
                404 (NotJSON "Unexpected token < in JSON at position 0") w)
      as (msg & _ & Hshown & _ & Htext & _).
    { apply failure_status; by vm_compute. }
    unfold shown. rewrite Hshown.
    destruct (Htext JUndefined eq_refl) as (_ & _ & Hfalsy).
    rewrite Hfalsy; [by vm_compute|by intros []].
  - destruct (service_failure_surfaces_one_message
                200 (JSON (JObj {[ "success" := JBool false ]})) w)
      as (msg & _ & Hshown & _ & Htext & _).
    { apply (failure_flag 200 _ (JBool false)); by vm_compute. }
    unfold shown. rewrite Hshown.
    destruct (Htext JUndefined eq_refl) as (_ & _ & Hfalsy).
    rewrite Hfalsy; [done|by intros []].
  - destruct (service_failure_surfaces_one_message
                400 (JSON (JObj {[ "error" := JNum (Int 42) ]})) w)
      as (msg & _ & Hshown & _ & Htext & _).
    { apply failure_status; by vm_compute. }
    unfold shown. rewrite Hshown.
    destruct (Htext (JNum (Int 42)) eq_refl) as (-> & _).
    by vm_compute.
Defined.

(** ** [fetchAPI] *)

(** X6. [fetchAPI] returns a value in one case only: the response has a
    status from 200 to 299 and its body parses, and the value is the parsed
    body.  A rejected [fetch], a status outside that range (whatever the
    body) and a body that does not parse all end in a throw. *)
Theorem fetchAPI_returns_only_parsed_success (o : FetchOutcome) (v : JSValue) :
  fetchAPI o = inr v ↔ ∃ status, o = Responded status (JSON v) ∧ 200 <= status <= 299.
Proof.
  split.
  - destruct o as [reason|status body]; [done|]. unfold fetchAPI, ok.
    destruct ((200 <=? status) && (status <=? 299)) eqn:Hok; cbn [negb].
    + apply andb_true_iff in Hok as [?%Z.leb_le ?%Z.leb_le].
      destruct body as [syntaxError|v']; [done|]. intros [= ->]. exists status. split; [done|lia].
    + destruct (get _ "error") as [e|error]; [done|]. cbn [bindC].
      by destruct (ToString _).
  - intros (status & -> & Hlo & Hhi). unfold fetchAPI, ok.
    apply Z.leb_le in Hlo, Hhi. by rewrite Hlo, Hhi.
Qed.

(** ** [resetForm] and the handlers that call it *)

Lemma resetForm_steps (w : World) :
  resetForm w
  = hideError
      (on_element "ingredientInput" (set_value "")
      (on_element "dietaryRestrictions" (set_value "")
      (on_element "mealType" (set_value "")
      (on_element "cuisine" (set_value "")
      (on_element "difficulty" (set_value "Medium")
      (on_element "servings" (set_value "4")
      (on_element "cookingTime" (set_value "30")
      (on_element "ingredientsList" (set_children [])
      (with_generator (mkRecipeGenerator [] [])
      (on_element "recipeResult" (classList_add "hidden")
      (on_element ".form-container" (set_style_display "block") w))))))))))).
Proof. reflexivity. Qed.

Lemma document_with_generator g w : document (with_generator g w) = document w.
Proof. done. Qed.

Ltac lookup_element :=
  repeat first
    [ rewrite element_on_element_eq
    | rewrite element_on_element_ne by done
    | rewrite document_with_generator
    | rewrite document_setTimeout ].

Lemma classList_add_contains c e : classList_contains c (classList_add c e).
Proof.
  unfold classList_contains, classList_add. cbn [classList set_classList].
  apply bool_decide_pack. case_bool_decide; [done|].
  apply elem_of_app. right. by apply list_elem_of_singleton.
Qed.

(** X7. [resetForm] brings the page back to the empty form from any state:
    both lists are empty and no tag is shown, the fields hold their defaults, so
    that the payload is the default one and validation reports exactly the
    missing ingredient; the form container is displayed, the result section
    and the banner are hidden.  It cancels nothing: the requests sent, the
    calls suspended at their [await] and the timers are as before. *)
Theorem resetForm_restores_the_empty_form (w : World) :
  let w' := resetForm w in
  collectFormData w' = Payload.mk [] (Int 30) (Int 4) "Medium" "" "" "" []
  ∧ validateForm (collectFormData w') = ["Please add at least one ingredient"]
  ∧ children (element "ingredientsList" (document w')) = []
  ∧ value (element "ingredientInput" (document w')) = ""
  ∧ style_display (element ".form-container" (document w')) = "block"
  ∧ classList_contains "hidden" (element "recipeResult" (document w'))
  ∧ classList_contains "hidden" (element "errorMessage" (document w'))
  ∧ fetched w' = fetched w
  ∧ suspended w' = suspended w
  ∧ timers w' = timers w.
Proof.
  intros w'. subst w'.
  assert (Hform : collectFormData (resetForm w)
                  = Payload.mk [] (Int 30) (Int 4) "Medium" "" "" "" []).
  { rewrite resetForm_steps. unfold collectFormData, hideError. by lookup_element. }
  rewrite Hform. rewrite resetForm_steps. unfold hideError.
  refine (conj eq_refl (conj eq_refl (conj _ (conj _ (conj _ (conj _ (conj _
           (conj eq_refl (conj eq_refl eq_refl)))))))));
    lookup_element; first [reflexivity | apply classList_add_contains].
Qed.

Lemma resetForm_hides_result (w : World) :
  classList_contains "hidden" (element "recipeResult" (document (resetForm w))).
Proof.
  rewrite resetForm_steps. unfold hideError. lookup_element.
  apply classList_add_contains.
Qed.

(** X8. The Escape key and the browser's back button run the same handler:
    nothing happens while the result section is hidden, and [resetForm] runs
    when it is shown.  A second press therefore changes nothing, and after any
    rendering, complete or cut short by a throw, one press brings the form
    back. *)
Theorem keydown_Escape_returns_to_the_form (w : World) :
  popstate w = keydown_Escape w
  ∧ (classList_contains "hidden" (element "recipeResult" (document w)) ->
     keydown_Escape w = w)
  ∧ (¬ classList_contains "hidden" (element "recipeResult" (document w)) ->
     keydown_Escape w = resetForm w)
  ∧ keydown_Escape (keydown_Escape w) = keydown_Escape w
  ∧ (∀ recipe,
       keydown_Escape (fst (displayRecipe recipe w)) = resetForm (fst (displayRecipe recipe w))).
Proof.
  assert (Hshown : ∀ w0, ¬ classList_contains "hidden" (element "recipeResult" (document w0)) ->
                         keydown_Escape w0 = resetForm w0).
  { intros w0 Hvisible. unfold keydown_Escape.
    by destruct (classList_contains _ _). }
  assert (Hhidden : ∀ w0, classList_contains "hidden" (element "recipeResult" (document w0)) ->
                          keydown_Escape w0 = w0).
  { intros w0 Hhid. unfold keydown_Escape.
    by destruct (classList_contains _ _). }
  refine (conj _ (conj (Hhidden w) (conj (Hshown w) (conj _ _)))).
  - unfold popstate, keydown_Escape. by destruct (classList_contains _ _).
  - destruct (classList_contains "hidden" (element "recipeResult" (document w))) eqn:Hstate.
    + rewrite (Hhidden w) by (rewrite Hstate; exact I).
      apply Hhidden. rewrite Hstate. exact I.
    + rewrite (Hshown w) by (rewrite Hstate; intros []).
      apply Hhidden, resetForm_hides_result.
  - intros recipe. apply Hshown. apply displayRecipe_switches_view.
Qed.

Lemma keydown_Escape_returns_to_the_form_witness :
  let w := page ["egg"] "30" "4" in
  keydown_Escape w = resetForm w
  ∧ keydown_Escape (resetForm w) = resetForm w.
Proof.
  intros w.
  destruct (keydown_Escape_returns_to_the_form w) as (_ & _ & Hshown & _).
  destruct (keydown_Escape_returns_to_the_form (resetForm w)) as (_ & Hhidden & _).
  split.
  - apply Hshown. by vm_compute.
  - apply Hhidden. apply resetForm_hides_result.
Defined.

(** ** The error banner and its timers *)

(** X9. Every [showError] registers one more hiding timer and cancels none.
    After two errors in a row both timers are pending and the banner shows the
    second message; when the timer of the first error fires, it hides the
    banner although the message in it is the second one. *)
Theorem stale_timer_hides_the_later_error (first second : string) (w : World) :
  second ≠ "" ->
  let w2 := showError second (showError first w) in
  timers w2 = timers w ++ [(8000, HideError); (8000, HideError)]
  ∧ children (element "errorText" (document w2)) = [TextNode second]
  ∧ ¬ classList_contains "hidden" (element "errorMessage" (document w2))
  ∧ classList_contains "hidden" (element "errorMessage" (document (fire HideError w2)))
  ∧ children (element "errorText" (document (fire HideError w2))) = [TextNode second]
  ∧ timers (fire HideError w2) = timers w2.
Proof.
  intros Hsecond w2. subst w2.
  destruct (banner_after_showError second (showError first w) Hsecond) as [Htext Hvisible].
  refine (conj _ (conj Htext (conj Hvisible (conj _ (conj _ eq_refl))))).
  - unfold showError, setTimeout. cbn [timers on_element with_document with_timers].
    by rewrite <- app_assoc.
  - unfold fire, hideError. rewrite element_on_element_eq. apply classList_add_contains.
  - unfold fire, hideError. by rewrite element_on_element_ne.
Qed.

Lemma stale_timer_hides_the_later_error_witness :
  let w2 := showError "Servings must be between 1 and 20"
              (offline (page ["egg"] "30" "40")) in
  length (timers w2) = 2%nat
  ∧ children (element "errorText" (document (fire HideError w2)))
    = [TextNode "Servings must be between 1 and 20"]
  ∧ classList_contains "hidden" (element "errorMessage" (document (fire HideError w2))).
Proof.
  intros w2.
  destruct (stale_timer_hides_the_later_error
              "Network connection lost. Please check your internet connection."
              "Servings must be between 1 and 20" (page ["egg"] "30" "40"))
    as (Htimers & _ & _ & Hhidden & Htext & _); [done|].
  refine (conj _ (conj Htext Hhidden)).
  unfold w2, offline. by rewrite Htimers.
Defined.

(** ** White space and [trim] *)

Lemma append_cons c (s t : string) : String c s +:+ t = String c (s +:+ t).
Proof. reflexivity. Qed.

Lemma append_nil (t : string) : "" +:+ t = t.
Proof. reflexivity. Qed.

Lemma append_assoc (s t u : string) : (s +:+ t) +:+ u = s +:+ (t +:+ u).
Proof. induction s as [|c s IH]; [done|]. by rewrite !append_cons, IH. Qed.

Lemma append_empty_r (s : string) : s +:+ "" = s.
Proof. induction s as [|c s IH]; [done|]. by rewrite append_cons, IH. Qed.

Lemma rev_app_append (s t : string) : String.rev_app s t = String.rev s +:+ t.
Proof.
  unfold String.rev. revert t. induction s as [|c s IH]; intros t; [done|].
  cbn [String.rev_app]. rewrite IH, (IH (String c "")).
  by rewrite append_assoc.
Qed.

Lemma rev_cons c (s : string) : String.rev (String c s) = String.rev s +:+ String c "".
Proof. unfold String.rev at 1. cbn [String.rev_app]. apply rev_app_append. Qed.

Lemma rev_append (s t : string) : String.rev (s +:+ t) = String.rev t +:+ String.rev s.
Proof.
  induction s as [|c s IH].
  - by rewrite append_nil, append_empty_r.
  - by rewrite append_cons, !rev_cons, IH, append_assoc.
Qed.

Lemma rev_involutive (s : string) : String.rev (String.rev s) = s.
Proof.
  induction s as [|c s IH]; [done|]. by rewrite rev_cons, rev_append, IH.
Qed.

Lemma trimStart_idempotent (s : string) : trimStart (trimStart s) = trimStart s.
Proof.
  induction s as [|c s IH]; [done|]. simpl.
  destruct (is_whitespace c) eqn:Hc; [done|]. simpl. by rewrite Hc.
Qed.

Lemma trimStart_append (s t : string) :
  trimStart (s +:+ t) = if bool_decide (trimStart s = "") then trimStart t else trimStart s +:+ t.
Proof.
  induction s as [|c s IH]; [done|]. rewrite append_cons. cbn [trimStart].
  destruct (is_whitespace c); [done|]. by rewrite bool_decide_eq_false_2.
Qed.

Lemma trimEnd_idempotent (s : string) : trimEnd (trimEnd s) = trimEnd s.
Proof. unfold trimEnd. by rewrite rev_involutive, trimStart_idempotent. Qed.

Lemma rev_empty (s : string) : String.rev s = "" -> s = "".
Proof. intros H. by rewrite <- (rev_involutive s), H. Qed.

Lemma trimEnd_cons c (s : string) :
  trimEnd (String c s)
  = if bool_decide (trimEnd s = "")
    then (if is_whitespace c then "" else String c "")
    else String c (trimEnd s).
Proof.
  unfold trimEnd. rewrite rev_cons, trimStart_append.
  destruct (decide (trimStart (String.rev s) = "")) as [Hempty|Hne].
  - rewrite (bool_decide_eq_true_2 _ Hempty), Hempty.
    rewrite bool_decide_eq_true_2 by done.
    cbn [trimStart]. by destruct (is_whitespace c).
  - rewrite (bool_decide_eq_false_2 _ Hne).
    rewrite bool_decide_eq_false_2 by (intros Hrev; by apply rev_empty in Hrev).
    by rewrite rev_append.
Qed.

Lemma trimStart_trimEnd (s : string) :
  trimStart s = s -> trimStart (trimEnd s) = trimEnd s.
Proof.
  destruct s as [|c s]; [done|]. rewrite trimEnd_cons. simpl.
  destruct (is_whitespace c) eqn:Hc.
  - intros Hs. exfalso.
    assert (Hlen : (String.length (trimStart s) <= String.length s)%nat).
    { clear. induction s as [|c s IH]; simpl; [lia|]. destruct (is_whitespace c); simpl; lia. }
    rewrite Hs in Hlen. simpl in Hlen. lia.
  - intros _. case_bool_decide; simpl; by rewrite Hc.
Qed.

Lemma trim_idempotent (s : string) : trim (trim s) = trim s.
Proof.
  unfold trim. rewrite trimStart_trimEnd by apply trimStart_idempotent.
  apply trimEnd_idempotent.
Qed.

(** ** The ingredient list and its tags *)

Lemma children_fold_appendChild {A} sel (mk : A -> Node) (xs : list A) (w : World) :
  children (element sel (document
     (fold_left (fun w x => on_element sel (appendChild (mk x)) w) xs w)))
  = children (element sel (document w)) ++ map mk xs.
Proof.
  revert w. induction xs as [|x xs IH]; intros w; simpl.
  - by rewrite app_nil_r.
  - rewrite IH, element_on_element_eq. cbn [appendChild children set_children].
    by rewrite <- app_assoc.
Qed.

Lemma updateIngredientsDisplay_mirror (w : World) : tags_mirror (updateIngredientsDisplay w).
Proof.
  unfold tags_mirror. rewrite recipeGenerator_updateIngredientsDisplay.
  unfold updateIngredientsDisplay.
  rewrite (children_fold_appendChild "ingredientsList" IngredientTag).
  by rewrite element_on_element_eq.
Qed.

Lemma updateIngredientsDisplay_frame (w : World) sel :
  sel ≠ "ingredientsList" ->
  element sel (document (updateIngredientsDisplay w)) = element sel (document w).
Proof.
  intros Hne. unfold updateIngredientsDisplay.
  set (w0 := on_element "ingredientsList" (set_children []) w).
  assert (Hfold : ∀ xs w1,
            element sel (document (fold_left
              (fun w ingredient => on_element "ingredientsList"
                                     (appendChild (IngredientTag ingredient)) w) xs w1))
            = element sel (document w1)).
  { induction xs as [|x xs IH]; intros w1; [done|]. simpl.
    by rewrite IH, element_on_element_ne. }
  rewrite Hfold. subst w0. by rewrite element_on_element_ne.
Qed.

Lemma tags_mirror_on_element sel f w :
  sel ≠ "ingredientsList" -> tags_mirror w -> tags_mirror (on_element sel f w).
Proof. intros Hne Hm. unfold tags_mirror in *. by rewrite element_on_element_ne. Qed.

Lemma tags_mirror_addIngredient (w : World) : tags_mirror w -> tags_mirror (addIngredient w).
Proof.
  intros Hm. unfold addIngredient. destruct (_ && _); [|done].
  apply tags_mirror_on_element; [done|]. apply updateIngredientsDisplay_mirror.
Qed.

Lemma tags_mirror_resetForm (w : World) : tags_mirror (resetForm w).
Proof.
  rewrite resetForm_steps. unfold tags_mirror, hideError. by lookup_element.
Qed.

(** X10. After each call that redraws the tags, the list container holds one
    tag per entry of the ingredient list, in the order of the list, each made
    from the tag template with that entry's string: [removeIngredient],
    [resetForm] and the demo start give this from any state, and
    [addIngredient] keeps it, whatever the box holds, also when it adds
    nothing and so does not redraw. *)
Theorem ingredient_tags_mirror_the_list (w : World) :
  (∀ ingredient, tags_mirror (removeIngredient ingredient w))
  ∧ tags_mirror (resetForm w)
  ∧ tags_mirror (demo w)
  ∧ (tags_mirror w -> tags_mirror (addIngredient w))
  ∧ (∀ text, tags_mirror w -> tags_mirror (addIngredient (typeIngredient text w))).
Proof.
  refine (conj _ (conj (tags_mirror_resetForm w) (conj _ (conj (tags_mirror_addIngredient w) _)))).
  - intros ingredient. apply updateIngredientsDisplay_mirror.
  - apply updateIngredientsDisplay_mirror.
  - intros text Hm. apply tags_mirror_addIngredient. unfold typeIngredient.
    by apply tags_mirror_on_element.
Qed.

Lemma ingredient_tags_mirror_the_list_witness :
  let w := demo (page [] "30" "4") in
  children (element "ingredientsList" (document (addIngredient (typeIngredient " egg " w))))
  = [IngredientTag "chicken breast"; IngredientTag "rice"; IngredientTag "broccoli";
     IngredientTag "egg"]
  ∧ children (element "ingredientsList" (document (addIngredient (typeIngredient "rice" w))))
    = [IngredientTag "chicken breast"; IngredientTag "rice"; IngredientTag "broccoli"]
  ∧ children (element "ingredientsList" (document (removeIngredient "rice" w)))
    = [IngredientTag "chicken breast"; IngredientTag "broccoli"].
Proof.
  intros w.
  destruct (ingredient_tags_mirror_the_list (page [] "30" "4")) as (_ & _ & Hdemo & _).
  destruct (ingredient_tags_mirror_the_list w) as (Hremove & _ & _ & _ & Hadd).
  refine (conj _ (conj _ _)).
  - rewrite (Hadd " egg " Hdemo). by vm_compute.
  - rewrite (Hadd "rice" Hdemo). by vm_compute.
  - rewrite (Hremove "rice"). by vm_compute.
Defined.

(** X11. Adding an ingredient that is new and removing it again gives the
    list back; removing an ingredient and adding it again moves it to the end
    of the list. *)
Theorem add_and_remove_compose (w : World) (text : string) :
  let l := ingredients (recipeGenerator w) in
  let t := trim text in
  t ≠ "" ->
  (t ∉ l ->
   ingredients (recipeGenerator (removeIngredient t (addIngredient (typeIngredient text w)))) = l)
  ∧ ingredients (recipeGenerator (addIngredient (typeIngredient text (removeIngredient t w))))
    = filter (fun ing => ing ≠ t) l ++ [t].
Proof.
  intros l t Hne. split.
  - intros Hnotin. unfold removeIngredient.
    rewrite recipeGenerator_updateIngredientsDisplay. cbn [recipeGenerator with_generator ingredients].
    rewrite addIngredient_typed. cbv zeta. fold l t.
    rewrite bool_decide_eq_false_2 by tauto.
    rewrite filter_app, filter_ne_absent by done.
    rewrite filter_cons_False, filter_nil by (by intros ?). by rewrite app_nil_r.
  - rewrite addIngredient_typed. cbv zeta. fold t.
    unfold removeIngredient. rewrite recipeGenerator_updateIngredientsDisplay.
    cbn [recipeGenerator with_generator ingredients]. fold l.
    rewrite bool_decide_eq_false_2; [done|].
    intros [?|Hin]; [done|]. by apply list_elem_of_filter in Hin as [? _].
Qed.

Lemma add_and_remove_compose_witness :
  let w := page ["egg"; "flour"; "milk"] "30" "4" in
  ingredients (recipeGenerator (removeIngredient "rice" (addIngredient (typeIngredient " rice" w))))
  = ["egg"; "flour"; "milk"]
  ∧ ingredients (recipeGenerator (addIngredient (typeIngredient "egg " (removeIngredient "egg" w))))
    = ["flour"; "milk"; "egg"].
Proof.
  intros w.
  destruct (add_and_remove_compose w " rice") as [Hfresh _]; [done|].
  destruct (add_and_remove_compose w "egg ") as [_ Hmove]; [done|].
  split.
  - apply Hfresh. not_in_literal.
  - exact Hmove.
Defined.

(** X12. No call stores an ingredient that is empty or has white space
    around it: when every stored ingredient is non-empty and trimmed,
    [addIngredient] keeps it so whatever the box holds, since it stores the
    trimmed text only and trimming twice is trimming once, and so does
    [removeIngredient]; [resetForm] and the demo start give such a list from
    any state. *)
Theorem stored_ingredients_are_trimmed (w : World) :
  let kept w := Forall (fun t => t ≠ "" ∧ trimmed t) (ingredients (recipeGenerator w)) in
  (kept w -> kept (addIngredient w))
  ∧ (kept w -> ∀ text, kept (addIngredient (typeIngredient text w)))
  ∧ (kept w -> ∀ ingredient, kept (removeIngredient ingredient w))
  ∧ kept (resetForm w)
  ∧ kept (demo w).
Proof.
  intros kept. subst kept. cbn beta.
  assert (Hadd : ∀ w, Forall (fun t => t ≠ "" ∧ trimmed t) (ingredients (recipeGenerator w)) ->
                      Forall (fun t => t ≠ "" ∧ trimmed t)
                        (ingredients (recipeGenerator (addIngredient w)))).
  { clear w. intros w Hall.
    set (t := trim (value (element "ingredientInput" (document w)))).
    destruct (decide (t = "" ∨ t ∈ ingredients (recipeGenerator w))) as [Hskip|Hskip].
    - by rewrite addIngredient_noop.
    - apply Decidable.not_or in Hskip as [Hne Hnotin].
      destruct (addIngredient_appends w Hne Hnotin) as (-> & _).
      apply Forall_app. split; [done|]. apply Forall_singleton.
      split; [done|]. apply trim_idempotent. }
  refine (conj (Hadd w) (conj _ (conj _ (conj _ _)))).
  - intros Hall text. by apply Hadd.
  - intros Hall ingredient. unfold removeIngredient.
    rewrite recipeGenerator_updateIngredientsDisplay.
    cbn [recipeGenerator with_generator ingredients].
    apply Forall_forall. intros x Hx. apply list_elem_of_filter in Hx as [_ Hx].
    by apply (proj1 (Forall_forall _ _) Hall).
  - rewrite ingredients_resetForm. apply Forall_nil_2.
  - unfold demo. rewrite recipeGenerator_updateIngredientsDisplay.
    cbn [recipeGenerator with_generator ingredients].
    repeat (apply Forall_cons; split; [by vm_compute|]). apply Forall_nil_2.
Qed.

Lemma stored_ingredients_are_trimmed_witness :
  let w := demo (page [] "30" "4") in
  Forall (fun t => t ≠ "" ∧ trimmed t)
    (ingredients (recipeGenerator (addIngredient (typeIngredient "  olive oil  " w))))
  ∧ ingredients (recipeGenerator (addIngredient (typeIngredient "  olive oil  " w)))
    = ["chicken breast"; "rice"; "broccoli"; "olive oil"]
  ∧ Forall (fun t => t ≠ "" ∧ trimmed t)
      (ingredients (recipeGenerator (removeIngredient "rice" w))).
Proof.
  intros w.
  destruct (stored_ingredients_are_trimmed (page [] "30" "4")) as (_ & _ & _ & _ & Hdemo).
  destruct (stored_ingredients_are_trimmed w) as (_ & Hadd & Hremove & _).
  refine (conj (Hadd Hdemo _) (conj _ (Hremove Hdemo _))).
  by vm_compute.
Defined.

(** ** The equipment grid *)

Lemma updateEquipmentSelection_membership item equipment g :
  let '(item', g') := updateEquipmentSelection item equipment g in
  checked item' = checked item
  ∧ selected item' = checked item
  ∧ (equipment ∈ selectedEquipment g' ↔ checked item)
  ∧ (∀ other, other ≠ equipment ->
       (other ∈ selectedEquipment g' ↔ other ∈ selectedEquipment g))
  ∧ ingredients g' = ingredients g.
Proof.
  unfold updateEquipmentSelection, includes. destruct (checked item) eqn:Hchecked.
  - refine (conj eq_refl (conj eq_refl _)). case_bool_decide as Hin; cbn [negb].
    + refine (conj _ (conj _ eq_refl)); [done|]. by intros other _.
    + cbn [selectedEquipment ingredients]. refine (conj _ (conj _ eq_refl)).
      * split; [done|]. intros _. apply elem_of_app. right. by apply list_elem_of_singleton.
      * intros other Hne. rewrite elem_of_app, list_elem_of_singleton. tauto.
  - cbn [selectedEquipment ingredients checked selected].
    refine (conj eq_refl (conj eq_refl (conj _ (conj _ eq_refl)))).
    + split; [|done]. intros Hin. by apply list_elem_of_filter in Hin as [? _].
    + intros other Hne. rewrite list_elem_of_filter. tauto.
Qed.

(** X13. After the selection is updated for an equipment item, the item
    carries the class [selected] exactly when its box is checked, its name is
    in the selection exactly when the box is checked, and no other name enters
    or leaves the selection; the ingredient list is not touched.  One run of
    the item's [click] listener for a target that is not the checkbox flips the
    box first; this is all a click on the item beside the box and the label
    does, so it toggles the name.  A click on the checkbox, which the browser
    flips before both listeners run, toggles the name as well.  A click on the
    label does not: the listener flips the box and selects accordingly, then
    the label activates the box, which flips it back and runs the listeners
    again, so the box ends as it was and the name is selected exactly when the
    box was checked before the click. *)
Theorem equipment_selection_follows_the_checkbox
    (item : EquipmentItem) (equipment : string) (g : RecipeGenerator) :
  let others_kept (g' : RecipeGenerator) :=
    ∀ other, other ≠ equipment ->
      (other ∈ selectedEquipment g' ↔ other ∈ selectedEquipment g) in
  (let '(item', g') := checkbox_change item equipment g in
   selected item' = checked item
   ∧ (equipment ∈ selectedEquipment g' ↔ checked item)
   ∧ others_kept g'
   ∧ ingredients g' = ingredients g)
  ∧ item_click true item equipment g = checkbox_change item equipment g
  ∧ (let '(item', g') := click_on_item item equipment g in
     checked item' = negb (checked item)
     ∧ selected item' = negb (checked item)
     ∧ (equipment ∈ selectedEquipment g' ↔ ¬ checked item)
     ∧ others_kept g')
  ∧ (let '(item', g') := click_on_checkbox item equipment g in
     checked item' = negb (checked item)
     ∧ selected item' = negb (checked item)
     ∧ (equipment ∈ selectedEquipment g' ↔ ¬ checked item)
     ∧ others_kept g')
  ∧ (let '(item', g') := click_on_label item equipment g in
     checked item' = checked item
     ∧ selected item' = checked item
     ∧ (equipment ∈ selectedEquipment g' ↔ checked item)
     ∧ others_kept g').
Proof.
  intros others_kept. subst others_kept. cbn beta.
  assert (Hitem : ∀ item g,
            let '(item', g') := click_on_item item equipment g in
            checked item' = negb (checked item)
            ∧ selected item' = negb (checked item)
            ∧ (equipment ∈ selectedEquipment g' ↔ ¬ checked item)
            ∧ (∀ other, other ≠ equipment ->
                 (other ∈ selectedEquipment g' ↔ other ∈ selectedEquipment g))).
  { clear item g. intros item g. unfold click_on_item, item_click. cbn [negb].
    pose proof (updateEquipmentSelection_membership
                  (mkEquipmentItem (negb (checked item)) (selected item)) equipment g) as H.
    destruct (updateEquipmentSelection _ equipment g) as [item' g'].
    cbn [checked] in H. destruct H as (Hc & Hs & Hin & Hothers & _).
    refine (conj Hc (conj Hs (conj _ Hothers))).
    rewrite Hin. destruct (checked item); cbn; tauto. }
  assert (Hbox : ∀ item g,
            let '(item', g') := click_on_checkbox item equipment g in
            checked item' = negb (checked item)
            ∧ selected item' = negb (checked item)
            ∧ (equipment ∈ selectedEquipment g' ↔ ¬ checked item)
            ∧ (∀ other, other ≠ equipment ->
                 (other ∈ selectedEquipment g' ↔ other ∈ selectedEquipment g))).
  { clear item g. intros item g. unfold click_on_checkbox, item_click, checkbox_change.
    cbn [negb].
    pose proof (updateEquipmentSelection_membership
                  (mkEquipmentItem (negb (checked item)) (selected item)) equipment g) as H1.
    destruct (updateEquipmentSelection _ equipment g) as [item1 g1].
    cbn [checked] in H1. destruct H1 as (Hc1 & Hs1 & Hin1 & Hothers1 & _).
    pose proof (updateEquipmentSelection_membership item1 equipment g1) as H2.
    destruct (updateEquipmentSelection item1 equipment g1) as [item2 g2].
    destruct H2 as (Hc2 & Hs2 & Hin2 & Hothers2 & _).
    rewrite Hc2, Hs2, Hin2, Hc1. refine (conj eq_refl (conj eq_refl (conj _ _))).
    - destruct (checked item); cbn; tauto.
    - intros other Hne. rewrite (Hothers2 other Hne). by apply Hothers1. }
  refine (conj _ (conj eq_refl (conj (Hitem item g) (conj (Hbox item g) _)))).
  - unfold checkbox_change.
    pose proof (updateEquipmentSelection_membership item equipment g) as H.
    destruct (updateEquipmentSelection item equipment g) as [item' g']. tauto.
  - unfold click_on_label. fold (click_on_item item equipment g).
    pose proof (Hitem item g) as H1.
    destruct (click_on_item item equipment g) as [item1 g1].
    destruct H1 as (Hc1 & Hs1 & Hin1 & Hothers1).
    pose proof (Hbox item1 g1) as H2.
    destruct (click_on_checkbox item1 equipment g1) as [item2 g2].
    destruct H2 as (Hc2 & Hs2 & Hin2 & Hothers2).
    rewrite Hc2, Hs2, Hin2, Hc1, negb_involutive.
    refine (conj eq_refl (conj eq_refl (conj _ _))).
    + destruct (checked item); cbn; tauto.
    + intros other Hne. rewrite (Hothers2 other Hne). by apply Hothers1.
Qed.

Lemma equipment_selection_follows_the_checkbox_witness :
  let g := mkRecipeGenerator [] ["Oven"; "Blender"] in
  let unchecked := mkEquipmentItem false false in
  "Oven" ∈ selectedEquipment (snd (checkbox_change (mkEquipmentItem false true) "Blender" g))
  ∧ "Wok" ∈ selectedEquipment (snd (click_on_item unchecked "Wok" g))
  ∧ "Wok" ∈ selectedEquipment (snd (click_on_checkbox unchecked "Wok" g))
  ∧ ("Wok" ∉ selectedEquipment (snd (click_on_label unchecked "Wok" g))).
Proof.
  intros g unchecked.
  pose proof (equipment_selection_follows_the_checkbox
                (mkEquipmentItem false true) "Blender" g) as [Hchange _].
  pose proof (equipment_selection_follows_the_checkbox unchecked "Wok" g)
    as (_ & _ & Hitem & Hbox & Hlabel).
  destruct (checkbox_change _ "Blender" g) as [item1 g1].
  destruct (click_on_item unchecked "Wok" g) as [item2 g2].
  destruct (click_on_checkbox unchecked "Wok" g) as [item3 g3].
  destruct (click_on_label unchecked "Wok" g) as [item4 g4]. cbn [snd].
  refine (conj _ (conj _ (conj _ _))).
  - destruct Hchange as (_ & _ & Hothers & _). apply Hothers; [done|]. in_literal.
  - destruct Hitem as (_ & _ & Hin & _). apply Hin. intros Hchecked. exact Hchecked.
  - destruct Hbox as (_ & _ & Hin & _). apply Hin. intros Hchecked. exact Hchecked.
  - destruct Hlabel as (_ & _ & Hin & _). intros Hwok. apply Hin in Hwok. exact Hwok.
Defined.

(** X14. Checking a name that is not selected and unchecking it again gives
    the selection back; names are kept in the order in which they were first
    checked, a newly checked name going to the end. *)
Theorem check_then_uncheck_restores_the_selection
    (equipment : string) (g : RecipeGenerator) (visible visible' : bool) :
  let on := snd (updateEquipmentSelection (mkEquipmentItem true visible) equipment g) in
  let off := snd (updateEquipmentSelection (mkEquipmentItem false visible') equipment on) in
  equipment ∉ selectedEquipment g ->
  selectedEquipment on = selectedEquipment g ++ [equipment]
  ∧ selectedEquipment off = selectedEquipment g.
Proof.
  intros on off Hnotin. subst on off. unfold updateEquipmentSelection, includes.
  cbn [checked snd]. rewrite (bool_decide_eq_false_2 _ Hnotin).
  cbn [negb selectedEquipment]. split; [done|].
  rewrite filter_app, filter_ne_absent by done.
  rewrite filter_cons_False, filter_nil by (by intros ?). by rewrite app_nil_r.
Qed.

Lemma check_then_uncheck_restores_the_selection_witness :
  let g := mkRecipeGenerator ["egg"] ["Oven"; "Blender"] in
  let on := snd (updateEquipmentSelection (mkEquipmentItem true false) "Wok" g) in
  selectedEquipment on = ["Oven"; "Blender"; "Wok"]
  ∧ selectedEquipment (snd (updateEquipmentSelection (mkEquipmentItem false true) "Wok" on))
    = ["Oven"; "Blender"].
Proof.
  intros g on.
  apply (check_then_uncheck_restores_the_selection "Wok" g false true).
  not_in_literal.
Defined.

(** ** The loops of the renderer *)

Lemma bind_bind {A B C} (c : Cmd A) (k1 : A -> Cmd B) (k2 : B -> Cmd C) w :
  bind (bind c k1) k2 w = bind c (fun a => bind (k1 a) k2) w.
Proof. unfold bind. by destruct (c w) as [w1 [e|a]]. Qed.

Lemma forEach_render {A B} sel (render : A -> Completion B) (mk : B -> Node)
    (xs : list A) (w : World) :
  ∃ w',
    forEach (fun x => bind (eval (render x))
                        (fun b => exec (on_element sel (appendChild (mk b))))) xs w
    = (w', completion_of (snd (render_all render xs)))
    ∧ children (element sel (document w'))
      = children (element sel (document w)) ++ map mk (fst (render_all render xs))
    ∧ ∀ sel', sel' ≠ sel -> element sel' (document w') = element sel' (document w).
Proof.
  revert w. induction xs as [|x xs IH]; intros w.
  { exists w. by rewrite app_nil_r. }
  cbn [forEach render_all]. destruct (render x) as [e|b] eqn:Hrender.
  - exists w. by rewrite app_nil_r.
  - rewrite bind_bind, bind_eval, bind_exec.
    destruct (IH (on_element sel (appendChild (mk b)) w)) as (w' & Hrun & Hchildren & Hframe).
    exists w'. destruct (render_all render xs) as [bs r]. cbn [fst snd] in *.
    refine (conj Hrun (conj _ _)).
    + rewrite Hchildren, element_on_element_eq. cbn [appendChild children set_children map].
      by rewrite <- app_assoc.
    + intros sel' Hne. rewrite Hframe by done. by apply element_on_element_ne.
Qed.

Lemma render_all_length {A B} (render : A -> Completion B) (xs : list A) :
  snd (render_all render xs) = None -> length (fst (render_all render xs)) = length xs.
Proof.
  induction xs as [|x xs IH]; [done|]. cbn [render_all].
  destruct (render x) as [e|b]; [done|].
  destruct (render_all render xs) as [bs r]. cbn [fst snd] in *.
  intros Hr. cbn [length]. by rewrite IH.
Qed.

Lemma render_all_strings {B} (render : JSValue -> Completion B) (mk : string -> B)
    (names : list string) :
  (∀ s, render (JStr s) = inr (mk s)) ->
  render_all render (map JStr names) = (map mk names, None).
Proof.
  intros Hrender. induction names as [|s names IH]; [done|].
  cbn [map render_all]. by rewrite Hrender, IH.
Qed.

(** X15. [displayIngredients] and [displayInstructions] replace what their
    list showed by one row per entry of the array, in order, up to the first
    entry whose rendering throws; the exception of that entry, if any, is
    what the function throws, with the earlier rows left on the page.  Plain
    strings never throw and are shown as they are.  A value that is not an
    array empties the list and throws. *)
Theorem row_lists_render_up_to_the_first_failure (items : list JSValue) (w : World) :
  (∃ w', displayIngredients (JArr items) w
         = (w', completion_of (snd (render_all ingredient_li items)))
         ∧ children (element "recipeIngredients" (document w'))
           = fst (render_all ingredient_li items))
  ∧ (∃ w', displayInstructions (JArr items) w
           = (w', completion_of (snd (render_all instruction_li items)))
           ∧ children (element "recipeInstructions" (document w'))
             = fst (render_all instruction_li items))
  ∧ (∀ names, render_all ingredient_li (map JStr names) = (map Li names, None)
              ∧ render_all instruction_li (map JStr names) = (map Li names, None))
  ∧ (∀ v, (∀ elems, v ≠ JArr elems) ->
       ∃ e e',
         displayIngredients v w
         = (on_element "recipeIngredients" (set_children []) w, inl e)
         ∧ displayInstructions v w
           = (on_element "recipeInstructions" (set_children []) w, inl e')).
Proof.
  refine (conj _ (conj _ (conj _ _))).
  - unfold displayIngredients. rewrite bind_exec. cbn [as_array]. rewrite bind_eval.
    destruct (forEach_render "recipeIngredients" ingredient_li (fun li => li) items
                (on_element "recipeIngredients" (set_children []) w))
      as (w' & Hrun & Hchildren & _).
    exists w'. split; [exact Hrun|].
    rewrite Hchildren, element_on_element_eq. cbn [children set_children app].
    by rewrite map_id.
  - unfold displayInstructions. rewrite bind_exec. cbn [as_array]. rewrite bind_eval.
    destruct (forEach_render "recipeInstructions" instruction_li (fun li => li) items
                (on_element "recipeInstructions" (set_children []) w))
      as (w' & Hrun & Hchildren & _).
    exists w'. split; [exact Hrun|].
    rewrite Hchildren, element_on_element_eq. cbn [children set_children app].
    by rewrite map_id.
  - intros names. split; by apply render_all_strings.
  - intros v Hv. unfold displayIngredients, displayInstructions. rewrite !bind_exec.
    destruct v; try (by eexists _, _); by destruct (Hv elems).
Qed.

Lemma row_lists_render_up_to_the_first_failure_witness :
  let w := page [] "30" "4" in
  let flour : JSValue :=
    JObj {[ "item" := JStr "flour"; "amount" := JStr "2"; "unit" := JStr "cups" ]} in
  (∃ w', displayIngredients (JArr [JStr "egg"; flour]) w = (w', inr tt)
         ∧ children (element "recipeIngredients" (document w'))
           = [Li "egg"; IngredientLi "flour" None "2 cups"])
  ∧ (∃ w', displayIngredients (JArr [JStr "egg"; JNull; JStr "salt"]) w
           = (w', throw "Cannot read properties of null (reading 'item')")
           ∧ children (element "recipeIngredients" (document w')) = [Li "egg"])
  ∧ (∃ e, displayIngredients (JStr "2 eggs") w
          = (on_element "recipeIngredients" (set_children []) w, inl e)).
Proof.
  intros w flour. refine (conj _ (conj _ _)).
  - destruct (row_lists_render_up_to_the_first_failure [JStr "egg"; flour] w)
      as ((w' & Hrun & Hchildren) & _).
    exists w'. by rewrite Hrun, Hchildren.
  - destruct (row_lists_render_up_to_the_first_failure [JStr "egg"; JNull; JStr "salt"] w)
      as ((w' & Hrun & Hchildren) & _).
    exists w'. by rewrite Hrun, Hchildren.
  - destruct (row_lists_render_up_to_the_first_failure [] w) as (_ & _ & _ & Hnot).
    destruct (Hnot (JStr "2 eggs")) as (e & _ & He & _); [done|]. by exists e.
Defined.

(** X16. [displayEquipment], [displayTips] and [displayVariations] replace
    what their container showed by one badge or line per entry of the array,
    holding the entry's text ([null] giving the empty text), in order and up to
    the first entry whose conversion throws.  [displayVariations] adds its one
    suggestion line exactly when the array is empty, so when it returns the list
    of variations is never empty. *)
Theorem text_lists_render_every_entry (items : list JSValue) (w : World) :
  let texts := fst (render_all to_textContent items) in
  let thrown := snd (render_all to_textContent items) in
  (∃ w', displayEquipment (JArr items) w = (w', completion_of thrown)
         ∧ children (element "recipeEquipment" (document w')) = map EquipmentBadge texts)
  ∧ (∃ w', displayTips (JArr items) w = (w', completion_of thrown)
           ∧ children (element "recipeTips" (document w')) = map Li texts)
  ∧ (∃ w', displayVariations (JArr items) w = (w', completion_of thrown)
           ∧ children (element "recipeVariations" (document w'))
             = (if bool_decide (items = [])
                then [Li "Try adding different spices or substituting ingredients to make it your own!"]
                else map Li texts)
           ∧ (thrown = None -> children (element "recipeVariations" (document w')) ≠ []))
  ∧ (∀ names, render_all to_textContent (map JStr names) = (names, None)).
Proof.
  intros texts thrown. refine (conj _ (conj _ (conj _ _))).
  - unfold displayEquipment. rewrite bind_exec. cbn [as_array]. rewrite bind_eval.
    destruct (forEach_render "recipeEquipment" to_textContent EquipmentBadge items
                (on_element "recipeEquipment" (set_children []) w))
      as (w' & Hrun & Hchildren & _).
    exists w'. split; [exact Hrun|].
    by rewrite Hchildren, element_on_element_eq.
  - unfold displayTips. rewrite bind_exec. cbn [as_array]. rewrite bind_eval.
    destruct (forEach_render "recipeTips" to_textContent Li items
                (on_element "recipeTips" (set_children []) w))
      as (w' & Hrun & Hchildren & _).
    exists w'. split; [exact Hrun|].
    by rewrite Hchildren, element_on_element_eq.
  - unfold displayVariations. rewrite bind_exec. cbn [as_array]. rewrite bind_eval.
    destruct (forEach_render "recipeVariations" to_textContent Li items
                (on_element "recipeVariations" (set_children []) w))
      as (w' & Hrun & Hchildren & _).
    rewrite element_on_element_eq in Hchildren. cbn [children set_children app] in Hchildren.
    unfold bind at 1. rewrite Hrun. fold texts thrown in Hchildren |- *.
    destruct items as [|item items].
    + cbn. eexists. split; [reflexivity|]. rewrite element_on_element_eq.
      cbn in Hchildren. cbn [appendChild children set_children]. by rewrite Hchildren.
    + rewrite bool_decide_eq_false_2 by done.
      destruct thrown as [e|] eqn:Hthrown; cbn [completion_of].
      * exists w'. by rewrite bool_decide_eq_false_2.
      * rewrite bool_decide_eq_false_2 by (by cbn).
        exists w'. refine (conj eq_refl (conj Hchildren _)). intros _.
        rewrite Hchildren. intros Hnil. apply (f_equal length) in Hnil.
        rewrite length_map in Hnil. subst texts thrown.
        rewrite render_all_length in Hnil by done. done.
  - intros names. rewrite <- (map_id names) at 2.
    apply render_all_strings. done.
Qed.

Lemma text_lists_render_every_entry_witness :
  let w := page [] "30" "4" in
  (∃ w', displayVariations (JArr [JStr "Add chili"; JNull; JNum (Int 3)]) w = (w', inr tt)
         ∧ children (element "recipeVariations" (document w'))
           = [Li "Add chili"; Li ""; Li "3"])
  ∧ (∃ w', displayVariations (JArr []) w = (w', inr tt)
           ∧ children (element "recipeVariations" (document w')) ≠ []).
Proof.
  intros w. split.
  - destruct (text_lists_render_every_entry [JStr "Add chili"; JNull; JNum (Int 3)] w)
      as (_ & _ & (w' & Hrun & Hchildren & _) & _).
    exists w'. by rewrite Hrun, Hchildren.
  - destruct (text_lists_render_every_entry [] w)
      as (_ & _ & (w' & Hrun & _ & Hnonempty) & _).
    exists w'. split; [exact Hrun|]. by apply Hnonempty.
Defined.

(** ** What [generateRecipe] leaves alone *)

Lemma generateRecipe_resume_shape (o : FetchOutcome) (w : World) :
  ∃ w1 w2,
    (w1 = w ∨ ∃ data, w1 = fst (displayRecipe data w))
    ∧ (w2 = scrollToRecipe w1 ∨ ∃ msg, w2 = showError msg w1)
    ∧ generateRecipe_resume o w = setLoadingState false w2.
Proof.
  assert (Hreport : ∀ msg,
            generateRecipe_resume o w = setLoadingState false (showError msg w) ->
            ∃ w1 w2,
              (w1 = w ∨ ∃ data, w1 = fst (displayRecipe data w))
              ∧ (w2 = scrollToRecipe w1 ∨ ∃ msg, w2 = showError msg w1)
              ∧ generateRecipe_resume o w = setLoadingState false w2).
  { intros msg Hrun. exists w, (showError msg w).
    split; [by left|]. split; [right; by exists msg|]. exact Hrun. }
  destruct (fetchAPI o) as [e|response] eqn:Hfetch.
  { eapply Hreport. unfold generateRecipe_resume, finally, try_catch.
    by rewrite Hfetch. }
  destruct (get response "success") as [e|success] eqn:Hsuccess.
  { eapply Hreport. unfold generateRecipe_resume, finally, try_catch.
    by rewrite Hfetch, bind_eval, Hsuccess. }
  destruct (truthy success) eqn:Htruthy.
  - destruct (get_defined _ _ _ "data" Hsuccess) as [data Hdata].
    pose proof (generateRecipe_resume_success o response success data w Hfetch Hsuccess) as Hrun.
    rewrite Htruthy in Hrun. specialize (Hrun I Hdata).
    exists (fst (displayRecipe data w)).
    destruct (displayRecipe data w) as [w1 [e|[]]] eqn:Hrender; cbn [fst] in *.
    + eexists. split; [right; exists data; by rewrite Hrender|].
      split; [right; eexists; reflexivity|]. exact Hrun.
    + eexists. split; [right; exists data; by rewrite Hrender|].
      split; [left; reflexivity|]. exact Hrun.
  - destruct (get_defined _ _ _ "error" Hsuccess) as [error Herror].
    destruct (ToString (or_else error (JStr "Failed to generate recipe"))) as [e|msg] eqn:Htext.
    + eapply Hreport. unfold generateRecipe_resume, finally, try_catch.
      by rewrite Hfetch, bind_eval, Hsuccess, bind_eval, Htruthy, Herror, bind_eval, Htext.
    + eapply Hreport. unfold generateRecipe_resume, finally, try_catch.
      by rewrite Hfetch, bind_eval, Hsuccess, bind_eval, Htruthy, Herror, bind_eval, Htext.
Qed.

Lemma recipeGenerator_displayRecipe recipe w :
  recipeGenerator (fst (displayRecipe recipe w)) = recipeGenerator w
  ∧ fetched (fst (displayRecipe recipe w)) = fetched w
  ∧ suspended (fst (displayRecipe recipe w)) = suspended w.
Proof. destruct (document_only_displayRecipe recipe w) as [doc ->]. done. Qed.

(** X17. Neither half of [generateRecipe] touches what the user entered:
    after the call, and again after the response whatever it is, the ingredient
    list, the equipment selection, the tags and every form field are as before,
    so the same payload would be sent again.  The second half sends no request;
    of the page it changes at most the button, the banner and the result view. *)
Theorem generateRecipe_keeps_lists_and_form (o : FetchOutcome) (w : World) :
  (let w' := generateRecipe_submit w in
   recipeGenerator w' = recipeGenerator w
   ∧ collectFormData w' = collectFormData w
   ∧ element "ingredientsList" (document w') = element "ingredientsList" (document w))
  ∧ (let w' := generateRecipe_resume o w in
     recipeGenerator w' = recipeGenerator w
     ∧ fetched w' = fetched w
     ∧ suspended w' = suspended w
     ∧ collectFormData w' = collectFormData w
     ∧ (∀ sel, sel ∉ ["generateBtn"; "errorText"; "errorMessage"] ++ recipe_selectors ->
          element sel (document w') = element sel (document w))).
Proof.
  split.
  - cbv zeta. destruct (decide (validateForm (collectFormData w) = [])) as [Hvalid|Hinvalid].
    + destruct (generateRecipe_submit_valid w Hvalid) as (_ & _ & _ & Hform).
      refine (conj _ (conj Hform _)).
      * unfold generateRecipe_submit. rewrite Hvalid.
        by rewrite bool_decide_eq_false_2 by (simpl; lia).
      * unfold generateRecipe_submit. rewrite Hvalid.
        rewrite bool_decide_eq_false_2 by (simpl; lia).
        cbv zeta. unfold fetch, hideError, setLoadingState.
        cbn [document with_suspended with_fetched]. by lookup_element.
    + unfold generateRecipe_submit.
      rewrite bool_decide_eq_true_2
        by (destruct (validateForm (collectFormData w)); [done|simpl; lia]).
      refine (conj eq_refl (conj _ _)).
      * unfold showError.
        change (collectFormData (setTimeout ?cb ?d ?w0)) with (collectFormData w0).
        rewrite !collectFormData_on_element; [done|..]; not_in_literal.
      * apply showError_frame. not_in_literal.
  - cbv zeta.
    destruct (generateRecipe_resume_shape o w) as (w1 & w2 & Hw1 & Hw2 & ->).
    assert (Hstate : recipeGenerator w1 = recipeGenerator w ∧ fetched w1 = fetched w
                     ∧ suspended w1 = suspended w).
    { destruct Hw1 as [->|[data ->]]; [done|]. apply recipeGenerator_displayRecipe. }
    assert (Hstate2 : recipeGenerator w2 = recipeGenerator w ∧ fetched w2 = fetched w
                      ∧ suspended w2 = suspended w).
    { destruct Hw2 as [->|[msg ->]]; exact Hstate. }
    assert (Hframe : ∀ sel, sel ∉ ["generateBtn"; "errorText"; "errorMessage"] ++ recipe_selectors ->
              element sel (document (setLoadingState false w2)) = element sel (document w)).
    { intros sel Hsel.
      assert (Hne : ∀ x, x ∈ ["generateBtn"; "errorText"; "errorMessage"] ++ recipe_selectors ->
                         sel ≠ x) by (by intros x Hx ->).
      rewrite setLoadingState_frame by (apply Hne; in_literal).
      assert (Hw1' : element sel (document w1) = element sel (document w)).
      { destruct Hw1 as [->|[data ->]]; [done|]. apply displayRecipe_frame.
        intros Hin. apply Hsel. apply elem_of_app. by right. }
      destruct Hw2 as [->|[msg ->]].
      - unfold scrollToRecipe. by rewrite document_setTimeout.
      - rewrite showError_frame; [done|].
        intros Hin. apply Hsel. apply elem_of_app. left.
        by apply list_elem_of_further. }
    destruct Hstate2 as (Hg & Hf & Hs).
    refine (conj Hg (conj Hf (conj Hs (conj _ Hframe)))).
    unfold collectFormData. rewrite !Hframe by not_in_literal.
    change (recipeGenerator (setLoadingState false w2)) with (recipeGenerator w2).
    by rewrite Hg.
Qed.

Lemma generateRecipe_keeps_lists_and_form_witness :
  let w := typeIngredient "salt" (page ["egg"] "30" "4") in
  value (element "ingredientInput"
           (document (generateRecipe_resume (Responded 503 (NotJSON "Unexpected end of JSON input")) w)))
  = "salt".
Proof.
  intros w.
  destruct (generateRecipe_keeps_lists_and_form
              (Responded 503 (NotJSON "Unexpected end of JSON input")) w)
    as (_ & _ & _ & _ & _ & Hframe).
  rewrite Hframe by not_in_literal. by vm_compute.
Defined.

(** ** The header of the result view *)

Lemma to_textContent_or_else_text v literal :
  printable v -> to_textContent (or_else v (JStr literal)) = inr (text_or v literal).
Proof.
  intros [s Hs]. unfold text_or, or_else. rewrite Hs.
  apply text_of_Some in Hs. destruct (truthy v) eqn:Htruthy; [|done].
  destruct v; try done.
Qed.

(** X20. For a response object whose six header values convert to text, the
    header of the result view is written in full, whatever happens later in
    the lists: title, difficulty and cuisine show the response's value when it
    is truthy and "Generated Recipe", "Medium", "Mixed" otherwise, the
    description shows its value or nothing, and the servings line shows the
    text of [servings] followed by " servings", with no default. *)
Theorem displayRecipe_writes_the_header (recipe : gmap string JSValue) (w : World) :
  let shown sel := children (element sel (document (fst (displayRecipe (JObj recipe) w)))) in
  let time := or_else (field recipe "totalTime") (field recipe "cookTime") in
  Forall printable [field recipe "title"; field recipe "description"; time;
                    field recipe "servings"; field recipe "difficulty";
                    field recipe "cuisine"] ->
  shown "recipeTitle" = text_node_of (text_or (field recipe "title") "Generated Recipe")
  ∧ shown "recipeDescription" = text_node_of (text_or (field recipe "description") "")
  ∧ shown "recipeServings"
    = [TextNode (default "" (text_of (field recipe "servings")) +:+ " servings")]
  ∧ shown "recipeDifficulty" = text_node_of (text_or (field recipe "difficulty") "Medium")
  ∧ shown "recipeCuisine" = text_node_of (text_or (field recipe "cuisine") "Mixed").
Proof.
  intros shown time Hprint. subst shown time.
  apply Forall_cons in Hprint as [Htitle Hprint].
  apply Forall_cons in Hprint as [Hdescription Hprint].
  apply Forall_cons in Hprint as [[time Htime] Hprint].
  apply Forall_cons in Hprint as [[servings Hservings] Hprint].
  apply Forall_cons in Hprint as [Hdifficulty Hprint].
  apply Forall_cons in Hprint as [Hcuisine _].
  rewrite Hservings. cbn [default].
  apply text_of_Some in Htime, Hservings.
  unfold displayRecipe. rewrite !bind_exec. cbn [get].
  repeat change (default JUndefined (recipe !! ?k)) with (field recipe k).
  rewrite bind_eval,
    (bind_run _ _ _ _ _ (assign_textContent_run _ _ _ _ (to_textContent_or_else_text _ _ Htitle))).
  rewrite bind_eval,
    (bind_run _ _ _ _ _ (assign_textContent_run _ _ _ _ (to_textContent_or_else_text _ _ Hdescription))).
  rewrite !bind_eval, Htime, bind_eval, bind_exec.
  rewrite bind_eval, Hservings, bind_eval, bind_exec.
  rewrite bind_eval,
    (bind_run _ _ _ _ _ (assign_textContent_run _ _ _ _ (to_textContent_or_else_text _ _ Hdifficulty))).
  rewrite bind_eval,
    (bind_run _ _ _ _ _ (assign_textContent_run _ _ _ _ (to_textContent_or_else_text _ _ Hcuisine))).
  match goal with
  | |- context [fst (?c ?w0)] =>
      assert (Hframe : ∀ sel,
                sel ∉ ["recipeIngredients"; "recipeEquipment"; "recipeInstructions";
                       "recipeTips"; "recipeNutrition"; "recipeStorage"; "recipeVariations"] ->
                preserves sel c);
      [|rewrite (Hframe "recipeTitle" ltac:(not_in_literal) w0),
                (Hframe "recipeDescription" ltac:(not_in_literal) w0),
                (Hframe "recipeServings" ltac:(not_in_literal) w0),
                (Hframe "recipeDifficulty" ltac:(not_in_literal) w0),
                (Hframe "recipeCuisine" ltac:(not_in_literal) w0)]
  end.
  { intros sel Hsel.
    assert (Hne : ∀ x, x ∈ ["recipeIngredients"; "recipeEquipment"; "recipeInstructions";
                            "recipeTips"; "recipeNutrition"; "recipeStorage"; "recipeVariations"] ->
                       x ≠ sel) by (by intros x Hx ->).
    repeat first
      [ apply preserves_displayIngredients; symmetry; apply Hne; in_literal
      | apply preserves_displayEquipment; symmetry; apply Hne; in_literal
      | apply preserves_displayInstructions; symmetry; apply Hne; in_literal
      | apply preserves_displayTips; symmetry; apply Hne; in_literal
      | apply preserves_displayNutrition; symmetry; apply Hne; in_literal
      | apply preserves_displayVariations; symmetry; apply Hne; in_literal
      | apply preserves_on_element; apply Hne; in_literal
      | frame_step ]. }
  lookup_element. cbn [children set_textContent set_children].
  refine (conj eq_refl (conj eq_refl (conj _ (conj eq_refl eq_refl)))).
  rewrite bool_decide_eq_false_2; [done|]. by apply append_nonempty.
Qed.

Lemma displayRecipe_writes_the_header_witness :
  let shown sel :=
    children (element sel (document (fst (displayRecipe
      (JObj {[ "title" := JStr "Fried rice"; "cuisine" := JStr ""; "cookTime" := JNum (Int 20);
               "ingredients" := JStr "rice, egg" ]})
      (page [] "30" "4"))))) in
  shown "recipeTitle" = [TextNode "Fried rice"]
  ∧ shown "recipeDescription" = []
  ∧ shown "recipeServings" = [TextNode "undefined servings"]
  ∧ shown "recipeDifficulty" = [TextNode "Medium"]
  ∧ shown "recipeCuisine" = [TextNode "Mixed"].
Proof.
  intros shown.
  destruct (displayRecipe_writes_the_header
              {[ "title" := JStr "Fried rice"; "cuisine" := JStr ""; "cookTime" := JNum (Int 20);
                 "ingredients" := JStr "rice, egg" ]} (page [] "30" "4"))
    as (Htitle & Hdescription & Hservings & Hdifficulty & Hcuisine).
  { repeat (apply Forall_cons; split; [vm_compute; eexists; reflexivity|]).
    apply Forall_nil_2. }
  subst shown. cbv beta.
  rewrite Htitle, Hdescription, Hservings, Hdifficulty, Hcuisine. by vm_compute.
Defined.

(** ** [loadDropdownOptions] *)

Lemma option_list_data (names : list string) :
  bindC (fetchAPI (option_list names)) (fun response => get response "data")
  = inr (JArr (map JStr names)).
Proof.
  unfold option_list, fetchAPI. change (ok 200) with true.
  cbn [negb bindC]. unfold get. by rewrite lookup_singleton_eq.
Qed.

Lemma populateSelect_strings selectId (names : list string) (c : Controls) :
  populateSelect selectId (JArr (map JStr names)) c
  = (mkControls (<[selectId := default [] (options c !! selectId)
                               ++ map (fun s => mkOption s s) names]> (options c))
                (equipmentGrid c) (requested c),
     inr tt).
Proof.
  unfold populateSelect. cbn [as_array].
  by rewrite (render_all_strings option_element (fun s => mkOption s s)).
Qed.

Lemma populateEquipmentGrid_strings (names : list string) (c : Controls) :
  populateEquipmentGrid (JArr (map JStr names)) c
  = (mkControls (options c)
                (equipmentGrid c ++ map (fun s => (s, mkEquipmentItem false false)) names)
                (requested c),
     inr tt).
Proof.
  unfold populateEquipmentGrid. cbn [as_array].
  by rewrite (render_all_strings grid_item (fun s => (s, mkEquipmentItem false false))).
Qed.

(** X18. When the four option requests each answer 200 with a list of
    strings, [loadDropdownOptions] requests the four endpoints in the order
    cuisines, meal types, dietary restrictions, equipment, each after the
    previous list was filled; it appends to every select one option per string
    (value and text both the string) after the options already there, appends
    to the grid one unchecked item per equipment name, and shows no error. *)
Theorem loadDropdownOptions_fills_the_four_lists
    (cuisines mealTypes dietary equipment : list string) (p : Page) :
  let '(p', next) :=
    loadDropdownOptions
      [option_list cuisines; option_list mealTypes; option_list dietary; option_list equipment]
      p in
  let added sel names :=
    default [] (options (controls p) !! sel) ++ map (fun s => mkOption s s) names in
  next = None
  ∧ world p' = world p
  ∧ requested (controls p')
    = requested (controls p)
      ++ ["/api/recipes/cuisines"; "/api/recipes/meal-types";
          "/api/recipes/dietary-restrictions"; "/api/recipes/equipment"]
  ∧ options (controls p')
    = <["dietaryRestrictions" := added "dietaryRestrictions" dietary]>
        (<["mealType" := added "mealType" mealTypes]>
           (<["cuisine" := added "cuisine" cuisines]> (options (controls p))))
  ∧ equipmentGrid (controls p')
    = equipmentGrid (controls p)
      ++ map (fun s => (s, mkEquipmentItem false false)) equipment.
Proof.
  unfold loadDropdownOptions, loadDropdownOptions_start.
  cbn [loadDropdownOptions_run].
  unfold loadDropdownOptions_resume at 1. rewrite option_list_data.
  cbn [populate]. rewrite populateSelect_strings. cbn [next_stage].
  unfold loadDropdownOptions_resume at 1. rewrite option_list_data.
  cbn [populate]. rewrite populateSelect_strings. cbn [next_stage].
  unfold loadDropdownOptions_resume at 1. rewrite option_list_data.
  cbn [populate]. rewrite populateSelect_strings. cbn [next_stage].
  unfold loadDropdownOptions_resume at 1. rewrite option_list_data.
  cbn [populate]. rewrite populateEquipmentGrid_strings. cbn [next_stage].
  unfold request, endpoint_of.
  cbn [world controls options equipmentGrid requested].
  refine (conj eq_refl (conj eq_refl (conj _ (conj _ eq_refl)))).
  - by rewrite <- !app_assoc.
  - by rewrite !lookup_insert_ne by done.
Qed.

(** X19. The option lists are not loaded independently.  When the request of
    a stage fails (no response, a status outside 2xx, a body that does not
    parse or is [null]), or its [data] is not an array, nothing is appended at
    that stage, no later list is requested or filled whatever the later outcomes
    would have been, and the banner shows the one fixed message, not the
    server's. *)
Theorem failed_option_list_blocks_the_rest
    (s : Stage) (o : FetchOutcome) (rest : list FetchOutcome) (p : Page) :
  (∀ elems, bindC (fetchAPI o) (fun response => get response "data") ≠ inr (JArr elems)) ->
  let '(p', next) := loadDropdownOptions_run s (o :: rest) p in
  next = None
  ∧ controls p' = controls p
  ∧ world p' = showError "Failed to load options. Please refresh the page." (world p)
  ∧ children (element "errorText" (document (world p')))
    = [TextNode "Failed to load options. Please refresh the page."]
  ∧ ¬ classList_contains "hidden" (element "errorMessage" (document (world p'))).
Proof.
  intros Hfail. cbn [loadDropdownOptions_run]. unfold loadDropdownOptions_resume.
  assert (Hbanner : ∀ c,
    let p' := mkPage (showError "Failed to load options. Please refresh the page." (world p)) c in
    world p' = showError "Failed to load options. Please refresh the page." (world p)
    ∧ children (element "errorText" (document (world p')))
      = [TextNode "Failed to load options. Please refresh the page."]
    ∧ ¬ classList_contains "hidden" (element "errorMessage" (document (world p')))).
  { intros c. split; [done|]. by apply banner_after_showError. }
  destruct (bindC (fetchAPI o) _) as [e|data] eqn:Hdata.
  { refine (conj eq_refl (conj eq_refl (Hbanner _))). }
  destruct data as [| | | | |elems|];
    try (destruct s; cbn [populate populateSelect populateEquipmentGrid as_array throw];
         refine (conj eq_refl (conj eq_refl (Hbanner _)))).
  by destruct (Hfail elems).
Qed.

Lemma failed_option_list_blocks_the_rest_witness :
  let p := mkPage (page [] "30" "4")
             (mkControls {[ "cuisine" := [mkOption "Thai" "Thai"] ]} []
                         ["/api/recipes/cuisines"; "/api/recipes/meal-types"]) in
  let '(p', next) :=
    loadDropdownOptions_run MealTypes
      [Responded 500 (NotJSON "Unexpected token <"); option_list ["Vegan"]; option_list ["Oven"]]
      p in
  next = None
  ∧ requested (controls p') = ["/api/recipes/cuisines"; "/api/recipes/meal-types"]
  ∧ equipmentGrid (controls p') = []
  ∧ children (element "errorText" (document (world p')))
    = [TextNode "Failed to load options. Please refresh the page."].
Proof.
  intros p.
  pose proof (failed_option_list_blocks_the_rest MealTypes
                (Responded 500 (NotJSON "Unexpected token <"))
                [option_list ["Vegan"]; option_list ["Oven"]] p) as Hblock.
  destruct (loadDropdownOptions_run MealTypes _ p) as [p' next].
  destruct Hblock as (Hnext & Hcontrols & _ & Htext & _); [by intros elems|].
  rewrite Hcontrols. by refine (conj Hnext (conj _ (conj _ Htext))).
Defined.
